(** * WordLocalAutosave: the autosave coordination engine of [main.py]

    A shallow embedding of [WordAutosaveService] (debounced autosave,
    event handlers, connection supervision, polling) together with the
    properties the specification states about it.

    Conventions of the embedding.
    - Times ([time.monotonic()], the configured intervals) are rationals.
      Each call of [time.monotonic()] is an explicit argument [now] of the
      function that makes it.
    - A host (COM) object is a record of the outcomes of the accesses the
      service makes on it.  An attribute read can give a value, fail with
      [AttributeError] (which [getattr] with a default absorbs) or fail
      with another exception; a method call returns or throws.
    - [try: A except: B] is a match on an [option]: [None] is "an
      exception left [A]".
    - Every function returns the service state it leaves behind and the
      list of calls it issued on the host, oldest first.  Calls of the
      logger are not part of the embedding. *)

From Stdlib Require Import QArith Qminmax Lqa.
From stdpp Require Import gmap strings pretty list.

Open Scope Q_scope.

(** ** Python values and host objects *)

(** Outcome of reading an attribute of a host object. *)
Inductive Attr (A : Type) : Type :=
  | Val (a : A)      (* the attribute exists and the read succeeds *)
  | NoAttr           (* AttributeError *)
  | Raises.          (* any other exception, e.g. a COM error *)
Arguments Val {A} a.
Arguments NoAttr {A}.
Arguments Raises {A}.

(** Outcome of calling a method of a host object. *)
Inductive Outcome : Type := Returns | Throws.

(** [getattr(obj, name, default)]: only [AttributeError] is replaced by
    the default; [None] means that another exception propagates. *)
Definition getattr {A : Type} (x : Attr A) (default : A) : option A :=
  match x with
  | Val a => Some a
  | NoAttr => Some default
  | Raises => None
  end.

(** The same with a default of another type than the attribute's, as in
    [getattr(doc, 'FullName', None)]: the result is a [str] or [None]. *)
Definition getattr_or_None {A : Type} (x : Attr A) : option (option A) :=
  match x with
  | Val a => Some (Some a)
  | NoAttr => Some None
  | Raises => None
  end.

(** Truth value of a [str]-or-[None]: [None] and the empty string are
    false. *)
Definition truthy (v : option string) : bool :=
  match v with
  | Some s => negb (String.eqb s EmptyString)
  | None => false
  end.
Arguments truthy : simpl never.

(** [a < b] on numbers. *)
Definition Qltb (a b : Q) : bool := (Qnum a * QDen b <? Qnum b * QDen a)%Z.

(** [a >= b] on numbers. *)
Definition Qgeb (a b : Q) : bool := Qle_bool b a.

(** [min(a, b)]: the first argument unless the second is strictly
    smaller. *)
Definition py_min (a b : Q) : Q := if Qltb b a then b else a.

(** A Word document as the service sees it during one handler. *)
Record Doc : Type := {
  doc_id : Z;                 (* id(doc) *)
  Name : Attr string;         (* doc.Name *)
  FullName : Attr string;     (* doc.FullName *)
  Saved : option bool;        (* doc.Saved; None: the read raises *)
  Save : Outcome              (* doc.Save() *)
}.

(** The Word application object held by the service: the object that
    [EnsureDispatch] gave, wrapped by [DispatchWithEvents] or not. *)
Inductive Handle : Type :=
  | WithEvents (app : Z)
  | Plain (app : Z).

(** What the host answers during one [connect_to_word]. *)
Record ConnectEnv : Type := {
  ensure_dispatch : option Z;        (* gencache.EnsureDispatch; None: raises *)
  dispatch_with_events : Outcome     (* DispatchWithEvents(word_app, ...) *)
}.

(** Calls issued on the host. *)
Inductive HostCall : Type :=
  | SaveCall (doc : Z)               (* doc.Save() on the document with this id *)
  | EnsureDispatchCall               (* gencache.EnsureDispatch("Word.Application") *)
  | DispatchWithEventsCall.          (* DispatchWithEvents(word_app, CustomWordEvents) *)

(** ** Service state *)

(** The timing entries of [DEFAULT_CONFIG]; the log entries are only read
    by [setup_logging]. *)
Record Config : Type := {
  debounce_seconds : Q;
  polling_interval : Q;
  reconnect_threshold : Z;
  main_loop_sleep : Q
}.

Definition DEFAULT_CONFIG : Config := {|
  debounce_seconds := 10;
  polling_interval := 15;
  reconnect_threshold := 20;
  main_loop_sleep := 1 # 2
|}.

(** The fields of [WordAutosaveService] set in [__init__]. *)
Record Service : Type := {
  config : Config;
  last_save_times : gmap string Q;
  word_app : option Handle;
  word : option Handle;              (* WordWrapper(word_app) *)
  connected : bool;
  last_poll_time : Q;
  reconnect_attempts : Z;
  running : bool
}.

Definition init (cfg : Config) : Service := {|
  config := cfg;
  last_save_times := ∅;
  word_app := None;
  word := None;
  connected := false;
  last_poll_time := 0;
  reconnect_attempts := 0;
  running := true
|}.

Definition set_last_save_times (f : gmap string Q → gmap string Q) (s : Service) : Service :=
  {| config := config s; last_save_times := f (last_save_times s);
     word_app := word_app s; word := word s; connected := connected s;
     last_poll_time := last_poll_time s;
     reconnect_attempts := reconnect_attempts s; running := running s |}.

Definition set_handles (h : option Handle) (s : Service) : Service :=
  {| config := config s; last_save_times := last_save_times s;
     word_app := h; word := h; connected := connected s;
     last_poll_time := last_poll_time s;
     reconnect_attempts := reconnect_attempts s; running := running s |}.

Definition set_connected (b : bool) (s : Service) : Service :=
  {| config := config s; last_save_times := last_save_times s;
     word_app := word_app s; word := word s; connected := b;
     last_poll_time := last_poll_time s;
     reconnect_attempts := reconnect_attempts s; running := running s |}.

Definition set_last_poll_time (t : Q) (s : Service) : Service :=
  {| config := config s; last_save_times := last_save_times s;
     word_app := word_app s; word := word s; connected := connected s;
     last_poll_time := t;
     reconnect_attempts := reconnect_attempts s; running := running s |}.

Definition set_reconnect_attempts (n : Z) (s : Service) : Service :=
  {| config := config s; last_save_times := last_save_times s;
     word_app := word_app s; word := word s; connected := connected s;
     last_poll_time := last_poll_time s;
     reconnect_attempts := n; running := running s |}.

Definition set_polling_interval (p : Q) (s : Service) : Service :=
  {| config := {| debounce_seconds := debounce_seconds (config s);
                  polling_interval := p;
                  reconnect_threshold := reconnect_threshold (config s);
                  main_loop_sleep := main_loop_sleep (config s) |};
     last_save_times := last_save_times s;
     word_app := word_app s; word := word s; connected := connected s;
     last_poll_time := last_poll_time s;
     reconnect_attempts := reconnect_attempts s; running := running s |}.

(** ** The save-eligibility policy: [try_autosave] *)

(** [f'Unknown_{id(doc)}'] *)
Definition Unknown_id (d : Doc) : string := "Unknown_" +:+ pretty (doc_id d).

(** The first [try] block of [try_autosave]: the pair [(name, path)]. *)
Definition autosave_identity (d : Doc) : string * string :=
  match
    name ← getattr (Name d) "Unknown Document";
    path ← getattr (FullName d) (Unknown_id d);
    Some (name, path)
  with
  | Some np => np
  | None => ("Unknown Document"%string, Unknown_id d)
  end.

(** The key under which [try_autosave] reads and writes
    [last_save_times]. *)
Definition autosave_path (d : Doc) : string := snd (autosave_identity d).

(** [self.last_save_times.get(path, 0)] *)
Definition last_time (s : Service) (path : string) : Q :=
  default 0 (last_save_times s !! path).

(** [try_autosave(doc)], with [now] the value of its [time.monotonic()].
    Returns the boolean result, the state and the host calls. *)
Definition try_autosave (s : Service) (now : Q) (d : Doc)
  : bool * Service * list HostCall :=
  let path := autosave_path d in
  match Saved d with
  | Some true => (false, s, [])
  | _ =>
    if Qltb (now - last_time s path) (debounce_seconds (config s))
    then (false, s, [])
    else
      match Save d with
      | Returns =>
        (true, set_last_save_times (<[path := now]>) s, [SaveCall (doc_id d)])
      | Throws => (false, s, [SaveCall (doc_id d)])
      end
  end.

(** ** Event handlers *)

(** The inner [try] block shared by [on_document_before_close] and
    [on_document_before_save]: [path = getattr(doc, 'FullName', None)]
    followed by the read of [Name].  The outer [None] is "an exception was
    raised", the inner one is Python's [None]. *)
Definition handler_path (d : Doc) : option (option string) :=
  path ← getattr_or_None (FullName d);
  name ← getattr (Name d) "Unknown Document";
  Some path.

(** [path in self.last_save_times] *)
Definition contains (m : gmap string Q) (path : string) : bool :=
  bool_decide (is_Some (m !! path)).

(** [on_document_before_close(doc, cancel)]; [now] is the clock read by the
    call of [try_autosave]. *)
Definition on_document_before_close (s : Service) (now : Q) (d : Doc)
  : Service * list HostCall :=
  let '(_, s1, calls) := try_autosave s now d in
  match handler_path d with
  | Some (Some path) =>
    if truthy (Some path) && contains (last_save_times s1) path
    then (set_last_save_times (delete path) s1, calls)
    else (s1, calls)
  | Some None => (s1, calls)
  | None => (s1, calls)
  end.

(** [on_document_before_save(doc, save_as_ui, cancel)]; [now] is the clock
    read when the path is recorded.  The handler returns [None] and never
    touches [cancel]. *)
Definition on_document_before_save (s : Service) (now : Q) (d : Doc)
  : Service * list HostCall :=
  match handler_path d with
  | Some (Some path) =>
    if truthy (Some path)
    then (set_last_save_times (<[path := now]>) s, [])
    else (s, [])
  | Some None => (s, [])
  | None => (s, [])
  end.

(** [on_document_open(doc)] *)
Definition on_document_open (s : Service) (now : Q) (d : Doc)
  : Service * list HostCall :=
  let '(_, s1, calls) := try_autosave s now d in (s1, calls).

(** [WordWrapper.document_count()], from the outcome of reading
    [app.Documents.Count]: without a [Documents] attribute the count is 0;
    [None] is an exception. *)
Definition document_count (count : Attr Z) : option Z := getattr count 0%Z.

(** [WordWrapper.get_active_document()]; [active] is the outcome of reading
    [app.ActiveDocument] ([None]: the read raises).  The result is the
    document, Python's [None], or an exception (outer [None]). *)
Definition get_active_document (count : Attr Z) (active : option Doc)
  : option (option Doc) :=
  n ← document_count count;
  if (0 <? n)%Z then d ← active; Some (Some d) else Some None.

(** [on_document_change()] *)
Definition on_document_change (s : Service) (now : Q)
    (count : Attr Z) (active : option Doc) : Service * list HostCall :=
  match word s with
  | None => (s, [])
  | Some _ =>
    match get_active_document count active with
    | Some (Some d) => let '(_, s1, calls) := try_autosave s now d in (s1, calls)
    | Some None => (s, [])
    | None => (s, [])
    end
  end.

(** [on_window_selection_change(selection)]; the argument is the outcome of
    reading [selection.Document], a document or Python's [None]. *)
Definition on_window_selection_change (s : Service) (now : Q)
    (Document : Attr (option Doc)) : Service * list HostCall :=
  match Document with
  | Val (Some d) => let '(_, s1, calls) := try_autosave s now d in (s1, calls)
  | Val None => (s, [])
  | NoAttr => (s, [])
  | Raises => (s, [])
  end.

(** The notifications that [CustomWordEvents] forwards to the service, each
    with what the host answers to the reads its handler makes. *)
Inductive Event : Type :=
  | OnDocumentChange (count : Attr Z) (active : option Doc)
  | OnWindowSelectionChange (Document : Attr (option Doc))
  | OnDocumentOpen (d : Doc)
  | OnDocumentBeforeClose (d : Doc)
  | OnDocumentBeforeSave (d : Doc).

Definition dispatch (s : Service) (now : Q) (e : Event)
  : Service * list HostCall :=
  match e with
  | OnDocumentChange count active => on_document_change s now count active
  | OnWindowSelectionChange sel => on_window_selection_change s now sel
  | OnDocumentOpen d => on_document_open s now d
  | OnDocumentBeforeClose d => on_document_before_close s now d
  | OnDocumentBeforeSave d => on_document_before_save s now d
  end.

(** [_process_events()]: [PumpWaitingMessages] delivers the pending
    notifications one after the other; each comes with the clock value its
    handler reads. *)
Fixpoint process_events (s : Service) (pending : list (Q * Event))
  : Service * list HostCall :=
  match pending with
  | [] => (s, [])
  | (now, e) :: rest =>
    let '(s1, calls1) := dispatch s now e in
    let '(s2, calls2) := process_events s1 rest in
    (s2, calls1 ++ calls2)
  end.

(** ** Connection supervision *)

(** [connect_to_word()] *)
Definition connect_to_word (s : Service) (env : ConnectEnv)
  : bool * Service * list HostCall :=
  let s1 := match word_app s with
            | Some _ => set_handles None s
            | None => s
            end in
  match ensure_dispatch env with
  | None => (false, set_connected false s1, [EnsureDispatchCall])
  | Some app =>
    let '(handle, events_enabled) :=
      match dispatch_with_events env with
      | Returns => (WithEvents app, true)
      | Throws => (Plain app, false)
      end in
    let s2 := set_handles (Some handle) s1 in
    let s3 := if negb events_enabled
              then set_polling_interval
                     (py_min (polling_interval (config s2)) 5) s2
              else s2 in
    (true, set_connected true s3, [EnsureDispatchCall; DispatchWithEventsCall])
  end.

(** [_check_connection()]; [probe] is the outcome of reading
    [self.word.name]. *)
Definition check_connection (s : Service) (probe : Outcome) : bool * Service :=
  if negb (connected s) || negb (bool_decide (is_Some (word s)))
  then (false, s)
  else
    match probe with
    | Returns => (true, s)
    | Throws => (false, set_connected false s)
    end.

(** [_handle_reconnect()] *)
Definition handle_reconnect (s : Service) (env : ConnectEnv)
  : Service * list HostCall :=
  if connected s then (s, [])
  else
    let s1 := set_reconnect_attempts (reconnect_attempts s + 1)%Z s in
    if (reconnect_threshold (config s1) <? reconnect_attempts s1)%Z
    then
      let '(ok, s2, calls) := connect_to_word s1 env in
      if ok then (set_reconnect_attempts 0%Z s2, calls) else (s2, calls)
    else (s1, []).

(** ** Polling *)

(** What the host answers during one [_poll_documents]. *)
Record PollEnv : Type := {
  poll_now : Q;                        (* time.monotonic() in _poll_documents *)
  Documents_Count : Attr Z;            (* app.Documents.Count *)
  Documents_Item : Z → option Doc;     (* app.Documents.Item(i); None: raises *)
  autosave_now : Z → Q                 (* the clock read by try_autosave on item i *)
}.

(** The loop of [_check_all_documents] over the documents that
    [iterate_documents] yields: the indices whose [Item] raises are
    skipped. *)
Fixpoint check_documents (s : Service) (env : PollEnv) (indices : list Z)
  : Z * Service * list HostCall :=
  match indices with
  | [] => (0%Z, s, [])
  | i :: rest =>
    match Documents_Item env i with
    | None => check_documents s env rest
    | Some d =>
      let '(saved, s1, calls1) := try_autosave s (autosave_now env i) d in
      let '(saved_count, s2, calls2) := check_documents s1 env rest in
      ((if saved then saved_count + 1 else saved_count)%Z, s2, calls1 ++ calls2)
    end
  end.

(** [_check_all_documents()]; an exception of [document_count] leaves the
    generator at its first step and gives 0. *)
Definition check_all_documents (s : Service) (env : PollEnv)
  : Z * Service * list HostCall :=
  match word s with
  | None => (0%Z, s, [])
  | Some _ =>
    match document_count (Documents_Count env) with
    | None => (0%Z, s, [])
    | Some count => check_documents s env (seqZ 1 count)
    end
  end.

(** [_poll_documents()] *)
Definition poll_documents (s : Service) (env : PollEnv)
  : Service * list HostCall :=
  let now := poll_now env in
  if Qgeb (now - last_poll_time s) (polling_interval (config s))
  then
    let '(_, s1, calls) := check_all_documents s env in
    (set_last_poll_time now s1, calls)
  else (s, []).

(** ** The main loop *)

(** What happens around the service during one iteration of the loop of
    [run]. *)
Record TickEnv : Type := {
  pending : list (Q * Event);    (* notifications delivered by _process_events *)
  probe : Outcome;               (* the read of self.word.name *)
  connect_env : ConnectEnv;      (* the host's answers if a connect is made *)
  poll_env : PollEnv
}.

(** One iteration of the [while self.running] loop of [run]. *)
Definition tick (s : Service) (env : TickEnv) : Service * list HostCall :=
  let '(s1, calls1) := process_events s (pending env) in
  let '(_, s2) := check_connection s1 (probe env) in
  let '(s3, calls3) := handle_reconnect s2 (connect_env env) in
  let '(s4, calls4) := poll_documents s3 (poll_env env) in
  (s4, calls1 ++ calls3 ++ calls4).

(** Successive iterations. *)
Fixpoint ticks (s : Service) (envs : list TickEnv) : Service * list HostCall :=
  match envs with
  | [] => (s, [])
  | env :: rest =>
    let '(s1, calls1) := tick s env in
    let '(s2, calls2) := ticks s1 rest in
    (s2, calls1 ++ calls2)
  end.

(** [run()] up to its loop: the initial [connect_to_word()]. *)
Definition startup (cfg : Config) (env : ConnectEnv) : Service :=
  snd (fst (connect_to_word (init cfg) env)).

(** The states the service goes through at the top of its loop. *)
Inductive reachable (cfg : Config) : Service → Prop :=
  | reachable_startup env : reachable cfg (startup cfg env)
  | reachable_tick s env : reachable cfg s → reachable cfg (fst (tick s env)).

(** Number of connect attempts in a trace: each [connect_to_word] calls
    [EnsureDispatch] once. *)
Definition is_connect (c : HostCall) : bool :=
  match c with EnsureDispatchCall => true | _ => false end.

Definition connect_attempts (calls : list HostCall) : nat :=
  length (filter (λ c, is_connect c = true) calls).

(** Calls of [Save] in a trace. *)
Definition is_save (c : HostCall) : bool :=
  match c with SaveCall _ => true | _ => false end.

Definition save_calls (calls : list HostCall) : nat :=
  length (filter (λ c, is_save c = true) calls).

(** ** Vocabulary of the statements *)

(** [now - lastSaveTimestamp(doc, default = 0)], as [try_autosave]
    computes it. *)
Definition elapsed (s : Service) (now : Q) (d : Doc) : Q :=
  now - last_time s (autosave_path d).

(** The part of the state that the connection state machine lives in. *)
Definition conn_fields (s : Service)
  : Config * option Handle * option Handle * bool * Z :=
  (config s, word_app s, word s, connected s, reconnect_attempts s).

(** A step from [s] with result [r] is quiet when it keeps the connection
    fields and makes no connect attempt. *)
Definition quiet (s : Service) (r : Service * list HostCall) : Prop :=
  conn_fields (fst r) = conn_fields s ∧ connect_attempts (snd r) = 0%nat.

(** The liveness check of a tick fails: the service is disconnected or the
    probe throws. *)
Definition check_fails (s : Service) (env : TickEnv) : Prop :=
  connected s = false ∨ (is_Some (word s) ∧ probe env = Throws).

(** What holds of the connection fields at the top of every iteration of
    the loop of [run]. *)
Definition conn_invariant (cfg : Config) (s : Service) : Prop :=
  (0 ≤ reconnect_attempts s)%Z
  ∧ (connected s = true → reconnect_attempts s = 0%Z ∧ is_Some (word s))
  ∧ reconnect_threshold (config s) = reconnect_threshold cfg.

(** DocumentIdentity in the words of the specification: the full path when
    available, else a synthetic identifier. *)
Definition spec_DocumentIdentity (d : Doc) : string :=
  match FullName d with
  | Val path => path
  | NoAttr | Raises => Unknown_id d
  end.

(** The key under which the before-save and before-close handlers touch
    [last_save_times]: the path they read, when the [if path] test lets it
    through; [None] when they leave the registry alone. *)
Definition handler_key (d : Doc) : option string :=
  match handler_path d with
  | Some (Some path) => if truthy (Some path) then Some path else None
  | Some None => None
  | None => None
  end.

(** ** Example inputs *)

(** A document example: saved on disk under a path, with unsaved changes,
    and whose [Save] succeeds. *)
Definition report_doc : Doc := {|
  doc_id := 7;
  Name := Val "report.docx"%string;
  FullName := Val "C:\docs\report.docx"%string;
  Saved := Some false;
  Save := Returns
|}.

Definition with_Saved (v : option bool) (d : Doc) : Doc :=
  {| doc_id := doc_id d; Name := Name d; FullName := FullName d;
     Saved := v; Save := Save d |}.

Definition with_Save (o : Outcome) (d : Doc) : Doc :=
  {| doc_id := doc_id d; Name := Name d; FullName := FullName d;
     Saved := Saved d; Save := o |}.

Definition with_FullName (a : Attr string) (d : Doc) : Doc :=
  {| doc_id := doc_id d; Name := Name d; FullName := a;
     Saved := Saved d; Save := Save d |}.

Definition with_Name (a : Attr string) (d : Doc) : Doc :=
  {| doc_id := doc_id d; Name := a; FullName := FullName d;
     Saved := Saved d; Save := Save d |}.

(** The service just after [__init__] with the default configuration, and
    the same after a save of [report_doc] recorded at time 0. *)
Definition fresh : Service := init DEFAULT_CONFIG.

Definition saved_at_0 : Service :=
  set_last_save_times (<[autosave_path report_doc := 0]>) fresh.

(** Ticks used in examples: no pending notification, no open document. *)
Definition no_documents (now : Q) : PollEnv := {|
  poll_now := now;
  Documents_Count := Val 0%Z;
  Documents_Item := λ _, None;
  autosave_now := λ _, now
|}.

Definition quiet_tick (p : Outcome) (c : ConnectEnv) (now : Q) : TickEnv := {|
  pending := [];
  probe := p;
  connect_env := c;
  poll_env := no_documents now
|}.

Definition word_with_events : ConnectEnv :=
  {| ensure_dispatch := Some 1%Z; dispatch_with_events := Returns |}.

Definition word_without_events : ConnectEnv :=
  {| ensure_dispatch := Some 1%Z; dispatch_with_events := Throws |}.

Definition no_word : ConnectEnv :=
  {| ensure_dispatch := None; dispatch_with_events := Throws |}.

(** A document without a readable [FullName]. *)
Definition pathless_doc : Doc := with_FullName NoAttr report_doc.

(** ** The rest of the service *)

(** [WordWrapper.get_document(index)]; [None]: the access raises. *)
Definition get_document (env : PollEnv) (index : Z) : option Doc :=
  Documents_Item env index.

(** [WordWrapper.iterate_documents()]: the documents the generator yields,
    each with its index, in order; the indices whose access raises are
    skipped.  [None]: [document_count] raised. *)
Definition iterate_documents (env : PollEnv) : option (list (Z * Doc)) :=
  count ← document_count (Documents_Count env);
  Some (omap (λ i, d ← get_document env i; Some (i, d)) (seqZ 1 count)).

(** The body of the [for] loop of [_check_all_documents], run over the
    documents that the generator yielded. *)
Fixpoint autosave_each (s : Service) (env : PollEnv) (docs : list (Z * Doc))
  : Z * Service * list HostCall :=
  match docs with
  | [] => (0%Z, s, [])
  | (i, d) :: rest =>
    let '(saved, s1, calls1) := try_autosave s (autosave_now env i) d in
    let '(saved_count, s2, calls2) := autosave_each s1 env rest in
    ((if saved then saved_count + 1 else saved_count)%Z, s2, calls1 ++ calls2)
  end.

Definition set_running (b : bool) (s : Service) : Service :=
  {| config := config s; last_save_times := last_save_times s;
     word_app := word_app s; word := word s; connected := connected s;
     last_poll_time := last_poll_time s;
     reconnect_attempts := reconnect_attempts s; running := b |}.

(** [stop()] *)
Definition stop (s : Service) : Service := set_running false s.

(** [shutdown()]: the two references are dropped when [word_app] is set.
    [CoUninitialize] is a call on the COM runtime, not on Word. *)
Definition shutdown (s : Service) : Service :=
  match word_app s with
  | Some _ => set_handles None s
  | None => s
  end.

(** The [while self.running] loop of [run], for as many iterations as
    there are elements in [envs]. *)
Fixpoint run_loop (s : Service) (envs : list TickEnv)
  : Service * list HostCall :=
  match envs with
  | [] => (s, [])
  | env :: rest =>
    if running s then
      let '(s1, calls1) := tick s env in
      let '(s2, calls2) := run_loop s1 rest in
      (s2, calls1 ++ calls2)
    else (s, [])
  end.

(** [run()]: the initial connect, the loop, and [shutdown] in the
    [finally] clause. *)
Definition run (s : Service) (env : ConnectEnv) (envs : list TickEnv)
  : Service * list HostCall :=
  let '(_, s0, calls0) := connect_to_word s env in
  let '(s1, calls1) := run_loop s0 envs in
  (shutdown s1, calls0 ++ calls1).

(** ** [load_config] *)

(** The built-in functions of Python that [load_config] applies to
    strings, and its type of floating-point numbers. *)
Class Builtins : Type := {
  float : Type;
  half : float;                        (* the literal 0.5 *)
  py_int : string → option Z;          (* int(s); None: ValueError *)
  py_float : string → option float;    (* float(s); None: ValueError *)
  str_lower : string → string;         (* s.lower() *)
  str_upper : string → string          (* s.upper() *)
}.

(** The values that a configuration entry can hold: what [json.load]
    produces. *)
#[warnings="-register-all"]
Inductive PyVal `{Builtins} : Type :=
  | PyNone
  | PyBool (b : bool)
  | PyInt (n : Z)
  | PyFloat (x : float)
  | PyStr (s : string)
  | PyList (l : list PyVal)
  | PyDict (l : list (string * PyVal)).

(** What [load_config] finds at [config_path]: no file; a file that cannot
    be opened or parsed, or whose value [dict.update] rejects at once; or a
    JSON object.  A JSON array of pairs, which [dict.update] would take
    too, is left out. *)
Inductive ConfigFile `{Builtins} : Type :=
  | NoFile
  | BadFile
  | JsonObject (entries : gmap string PyVal).

Section load_config.
Context `{Builtins}.

(** [DEFAULT_CONFIG], as the dictionary of the source. *)
Definition DEFAULT_CONFIG_dict : gmap string PyVal :=
  list_to_map [
    ("debounce_seconds"%string, PyInt 10);
    ("polling_interval"%string, PyInt 15);
    ("reconnect_threshold"%string, PyInt 20);
    ("main_loop_sleep"%string, PyFloat half);
    ("log_max_size"%string, PyInt (5 * 1024 * 1024));
    ("log_backup_count"%string, PyInt 3);
    ("log_directory"%string, PyStr EmptyString)
  ].

(** [config = DEFAULT_CONFIG.copy()] followed by
    [config.update(file_config)] when the file could be loaded. *)
Definition file_update (file : ConfigFile) : gmap string PyVal :=
  match file with
  | JsonObject entries => entries ∪ DEFAULT_CONFIG_dict
  | NoFile | BadFile => DEFAULT_CONFIG_dict
  end.

(** [f"WORD_AUTOSAVE_{key.upper()}"] *)
Definition env_var (key : string) : string :=
  "WORD_AUTOSAVE_" +:+ str_upper key.

(** The conversion of the text of an environment variable, chosen by the
    type of the value the entry holds; [None]: [ValueError]. *)
Definition convert (v : PyVal) (text : string) : option PyVal :=
  match v with
  | PyBool _ =>
    Some (PyBool (bool_decide
                    (str_lower text ∈ ["true"; "yes"; "1"]%string)))
  | PyInt _ => n ← py_int text; Some (PyInt n)
  | PyFloat _ => x ← py_float text; Some (PyFloat x)
  | PyNone | PyStr _ | PyList _ | PyDict _ => Some (PyStr text)
  end.

(** One turn of the loop over the keys: the entry after it. *)
Definition env_override (environ : gmap string string)
    (key : string) (v : PyVal) : PyVal :=
  match environ !! env_var key with
  | Some text =>
    match convert v text with
    | Some v' => v'
    | None => v
    end
  | None => v
  end.

(** [load_config(config_path)]; [environ] is [os.environ]. *)
Definition load_config (file : ConfigFile) (environ : gmap string string)
  : gmap string PyVal :=
  map_imap (λ key v, Some (env_override environ key v)) (file_update file).

(** Two values have the same Python type. *)
Definition same_type (v w : PyVal) : Prop :=
  match v, w with
  | PyNone, PyNone | PyBool _, PyBool _ | PyInt _, PyInt _
  | PyFloat _, PyFloat _ | PyStr _, PyStr _ | PyList _, PyList _
  | PyDict _, PyDict _ => True
  | _, _ => False
  end.
End load_config.

(** Built-ins for the examples: rationals for floats, and an [int] that
    reads a few numerals. *)
Definition example_builtins : Builtins := {|
  float := Q;
  half := 1 # 2;
  py_int := λ s,
    if String.eqb s "30" then Some 30%Z
    else if String.eqb s "5" then Some 5%Z else None;
  py_float := λ s, if String.eqb s "0.25" then Some (1 # 4) else None;
  str_lower := λ s, s;
  str_upper := λ s,
    if String.eqb s "debounce_seconds" then "DEBOUNCE_SECONDS"%string
    else if String.eqb s "polling_interval" then "POLLING_INTERVAL"%string
    else s
|}.

(** ** More vocabulary *)

(** No entry of the registry is later than [T]. *)
Definition registry_before (T : Q) (s : Service) : Prop :=
  ∀ (k : string) (t : Q), last_save_times s !! k = Some t → t <= T.

(** No clock value read during the tick is later than [T]. *)
Definition clock_before (T : Q) (env : TickEnv) : Prop :=
  (∀ now e, (now, e) ∈ pending env → now <= T)
  ∧ (∀ i, autosave_now (poll_env env) i <= T).

(** The trace that [try_autosave] leaves on the [i]-th document of a poll
    when it starts from [s]. *)
Definition alone (s : Service) (env : PollEnv) (i : Z) : list HostCall :=
  match Documents_Item env i with
  | Some d => snd (try_autosave s (autosave_now env i) d)
  | None => []
  end.

(** The registry keys of the accessible documents among [indices]. *)
Definition poll_keys (env : PollEnv) (indices : list Z) : list string :=
  omap (λ i, d ← Documents_Item env i; Some (autosave_path d)) indices.

(** The step from [s] with result [r] writes nothing but the registry,
    there at most the entry of [k], and calls nothing but at most one
    [Save]. *)
Definition only_touches (k : string) (s : Service)
    (r : Service * list HostCall) : Prop :=
  fst r = set_last_save_times (λ _, last_save_times (fst r)) s
  ∧ (∀ k' : string, k' ≠ k →
       last_save_times (fst r) !! k' = last_save_times s !! k')
  ∧ (snd r = [] ∨ ∃ id : Z, snd r = [SaveCall id]).

(** ** More example inputs *)

(** The default configuration with debouncing switched off. *)
Definition no_debounce : Service :=
  init {| debounce_seconds := 0; polling_interval := 15;
          reconnect_threshold := 20; main_loop_sleep := 1 # 2 |}.

(** A poll during which [app.Documents.Count] raises. *)
Definition broken_documents (now : Q) : PollEnv := {|
  poll_now := now;
  Documents_Count := Raises;
  Documents_Item := λ _, None;
  autosave_now := λ _, now
|}.

(** A second document, saved on disk and clean. *)
Definition notes_doc : Doc := {|
  doc_id := 8;
  Name := Val "notes.docx"%string;
  FullName := Val "C:\docs\notes.docx"%string;
  Saved := Some true;
  Save := Returns
|}.

(** A poll that finds three slots: [report_doc], one that cannot be
    accessed, and [notes_doc] with unsaved changes. *)
Definition three_slots (now : Q) : PollEnv := {|
  poll_now := now;
  Documents_Count := Val 3%Z;
  Documents_Item := λ i,
    if (i =? 1)%Z then Some report_doc
    else if (i =? 3)%Z then Some (with_Saved (Some false) notes_doc)
    else None;
  autosave_now := λ _, now
|}.

(** The service connected to Word with events. *)
Definition connected_service : Service :=
  startup DEFAULT_CONFIG word_with_events.

(** A tick that delivers the opening of [report_doc] at time 11 and does
    nothing else. *)
Definition open_report_tick : TickEnv := {|
  pending := [(11, OnDocumentOpen report_doc)];
  probe := Returns;
  connect_env := word_with_events;
  poll_env := no_documents 12
|}.

(** A configuration file that sets the polling interval, and an
    environment that sets the debounce time and holds a polling interval
    that is no number. *)
Definition example_file : @ConfigFile example_builtins :=
  JsonObject {[ "polling_interval"%string := PyInt 5 ]}.

Definition example_environ : gmap string string :=
  {[ "WORD_AUTOSAVE_DEBOUNCE_SECONDS"%string := "30"%string;
     "WORD_AUTOSAVE_POLLING_INTERVAL"%string := "fast"%string ]}.

(** A pathless document with another id. *)
Definition other_pathless_doc : Doc := {|
  doc_id := 9;
  Name := NoAttr;
  FullName := NoAttr;
  Saved := None;
  Save := Throws
|}.

(** * Properties *)

(** ** Arithmetic of the comparisons *)

Lemma Qltb_lt (a b : Q) : Qltb a b = true ↔ a < b.
Proof. unfold Qltb, Qlt. apply Z.ltb_lt. Qed.

Lemma Qltb_ge (a b : Q) : Qltb a b = false ↔ b <= a.
Proof. unfold Qltb, Qle. apply Z.ltb_ge. Qed.

Lemma Qgeb_ge (a b : Q) : Qgeb a b = true ↔ b <= a.
Proof. unfold Qgeb. apply Qle_bool_iff. Qed.

(** [min] of Python agrees with [Qmin], also on which of two equal numbers
    it returns. *)
Lemma py_min_Qmin (a b : Q) : py_min a b = Qmin a b.
Proof.
  unfold py_min, Qmin, GenericMinMax.gmin, Qltb, Qcompare.
  rewrite Z.ltb_compare, (Z.compare_antisym (Qnum a * QDen b)%Z).
  by destruct (Qnum a * QDen b ?= Qnum b * QDen a)%Z.
Qed.

Lemma py_min_idemp (a b : Q) : py_min (py_min a b) b = py_min a b.
Proof.
  unfold py_min. destruct (Qltb b a) eqn:E; [|by rewrite E].
  assert (Qltb b b = false) as ->; [|done].
  apply Qltb_ge. lra.
Qed.

Lemma py_min_le_r (a b : Q) : py_min a b <= b.
Proof.
  unfold py_min. destruct (Qltb b a) eqn:E; [lra|].
  by apply Qltb_ge in E.
Qed.

Lemma py_min_le_l (a b : Q) : py_min a b <= a.
Proof.
  unfold py_min. destruct (Qltb b a) eqn:E; [|lra].
  apply Qltb_lt in E. lra.
Qed.

(** ** What [try_autosave] can change *)

(** [try_autosave] writes nothing but [last_save_times]. *)
Lemma try_autosave_frame s now d :
  let s' := snd (fst (try_autosave s now d)) in
  s' = set_last_save_times (λ _, last_save_times s') s.
Proof.
  unfold try_autosave. destruct s.
  destruct (Saved d) as [[]|]; simpl; try done;
    destruct (Qltb _ _); simpl; try done; by destruct (Save d).
Qed.

(** The trace of [try_autosave] is empty or the single call of [Save], and
    the result is [True] exactly when the registry entry is written. *)
Lemma try_autosave_cases s now d :
  try_autosave s now d = (false, s, [])
  ∨ try_autosave s now d = (false, s, [SaveCall (doc_id d)])
  ∨ try_autosave s now d =
      (true, set_last_save_times (<[autosave_path d := now]>) s,
       [SaveCall (doc_id d)]).
Proof.
  unfold try_autosave.
  destruct (Saved d) as [[]|]; auto; destruct (Qltb _ _); auto;
    destruct (Save d); auto.
Qed.

(** ** The save-eligibility policy *)

(** C10: a document that the host reports as saved is not saved again:
    [try_autosave] returns [False], issues no call and leaves the state as
    it is. *)
Theorem try_autosave_clean (s : Service) (now : Q) (d : Doc) :
  Saved d = Some true →
  try_autosave s now d = (false, s, []).
Proof. intros H. unfold try_autosave. by rewrite H. Qed.

Lemma try_autosave_clean_witness :
  Saved (with_Saved (Some true) report_doc) = Some true
  ∧ try_autosave fresh 11 (with_Saved (Some true) report_doc)
    = (false, fresh, []).
Proof. split; [reflexivity | apply try_autosave_clean; reflexivity]. Defined.




(** C1, as the code has it: for a dirty document whose [Save] succeeds,
    when the time elapsed since its last recorded save (0 without a record)
    is at least [debounce_seconds], [try_autosave] issues exactly the one
    call of [Save], sets the document's entry of [last_save_times] to the
    current time and returns [True]. *)
Theorem try_autosave_saves (s : Service) (now : Q) (d : Doc) :
  Saved d = Some false →
  debounce_seconds (config s) <= elapsed s now d →
  Save d = Returns →
  try_autosave s now d
  = (true, set_last_save_times (<[autosave_path d := now]>) s,
     [SaveCall (doc_id d)]).
Proof.
  intros Hd Hge Hs. unfold try_autosave. rewrite Hd, Hs.
  apply Qltb_ge in Hge. unfold elapsed in Hge. by rewrite Hge.
Qed.

Lemma try_autosave_saves_witness :
  Saved report_doc = Some false
  ∧ debounce_seconds (config saved_at_0) <= elapsed saved_at_0 11 report_doc
  ∧ Save report_doc = Returns
  ∧ try_autosave saved_at_0 11 report_doc
    = (true,
       set_last_save_times (<[autosave_path report_doc := 11]>) saved_at_0,
       [SaveCall 7]).
Proof.
  assert (debounce_seconds (config saved_at_0)
          <= elapsed saved_at_0 11 report_doc) as H by (by vm_compute).
  split; [reflexivity | split; [exact H | split; [reflexivity |]]].
  apply try_autosave_saves; [reflexivity | exact H | reflexivity].
Defined.

(** C1 as the specification words it has no condition on the outcome of
    [Save]: it fails on a dirty, eligible document whose [Save] throws.
    [try_autosave] then returns [False] and records nothing. *)
Lemma try_autosave_saves_counterexample :
  let d := with_Save Throws report_doc in
  Saved d = Some false
  ∧ debounce_seconds (config saved_at_0) <= elapsed saved_at_0 11 d
  ∧ ¬ (fst (fst (try_autosave saved_at_0 11 d)) = true
       ∧ last_save_times (snd (fst (try_autosave saved_at_0 11 d)))
           !! autosave_path d = Some 11
       ∧ save_calls (snd (try_autosave saved_at_0 11 d)) = 1%nat).
Proof.
  split; [reflexivity | split; [by vm_compute |]].
  intros [H _]. vm_compute in H. discriminate.
Qed.

(** The scenario of the specification: debounce 10, saved at 0; dirty at 5:
    not saved; still dirty at 11: saved, and the record becomes 11. *)
Example debounce_scenario :
  try_autosave saved_at_0 5 report_doc = (false, saved_at_0, [])
  ∧ fst (fst (try_autosave saved_at_0 11 report_doc)) = true
  ∧ last_save_times (snd (fst (try_autosave saved_at_0 11 report_doc)))
      !! autosave_path report_doc = Some 11
  ∧ snd (try_autosave saved_at_0 11 report_doc) = [SaveCall 7].
Proof. by vm_compute. Qed.

(** C7: when [Save] throws on an eligible document that is not known to be
    saved, [try_autosave] returns [False] and the whole state, so also the
    document's entry of [last_save_times], is as before; at any later clock
    value the same document is therefore tried again. *)
Theorem try_autosave_save_fails (s : Service) (now : Q) (d : Doc) :
  Saved d ≠ Some true →
  debounce_seconds (config s) <= elapsed s now d →
  Save d = Throws →
  try_autosave s now d = (false, s, [SaveCall (doc_id d)])
  ∧ ∀ later : Q, now <= later →
      try_autosave (snd (fst (try_autosave s now d))) later d
      = (false, s, [SaveCall (doc_id d)]).
Proof.
  intros Hd Hge Hs.
  assert (∀ t : Q, now <= t →
            try_autosave s t d = (false, s, [SaveCall (doc_id d)])) as Hall.
  { intros t Ht. unfold try_autosave. rewrite Hs.
    assert (Qltb (t - last_time s (autosave_path d))
              (debounce_seconds (config s)) = false) as ->.
    { apply Qltb_ge. unfold elapsed in Hge. lra. }
    by destruct (Saved d) as [[]|]. }
  split.
  - apply Hall. lra.
  - intros later Hl. rewrite (Hall now) by lra. simpl. by apply Hall.
Qed.

Lemma try_autosave_save_fails_witness :
  let d := with_Save Throws report_doc in
  Saved d ≠ Some true
  ∧ debounce_seconds (config saved_at_0) <= elapsed saved_at_0 11 d
  ∧ Save d = Throws
  ∧ try_autosave saved_at_0 11 d = (false, saved_at_0, [SaveCall 7])
  ∧ try_autosave (snd (fst (try_autosave saved_at_0 11 d))) 12 d
    = (false, saved_at_0, [SaveCall 7]).
Proof.
  intros d.
  assert (Saved d ≠ Some true) as H1 by discriminate.
  assert (debounce_seconds (config saved_at_0)
          <= elapsed saved_at_0 11 d) as H2 by (by vm_compute).
  assert (Save d = Throws) as H3 by reflexivity.
  destruct (try_autosave_save_fails saved_at_0 11 d H1 H2 H3) as [Ha Hb].
  split; [exact H1 | split; [exact H2 | split; [exact H3 | split]]].
  - exact Ha.
  - apply Hb. by vm_compute.
Defined.



(** ** The connection fields and who writes them *)

Lemma connect_attempts_app (l1 l2 : list HostCall) :
  connect_attempts (l1 ++ l2) = (connect_attempts l1 + connect_attempts l2)%nat.
Proof. unfold connect_attempts. by rewrite filter_app, length_app. Qed.

Lemma save_calls_app (l1 l2 : list HostCall) :
  save_calls (l1 ++ l2) = (save_calls l1 + save_calls l2)%nat.
Proof. unfold save_calls. by rewrite filter_app, length_app. Qed.

Lemma quiet_refl (s : Service) : quiet s (s, []).
Proof. by split. Qed.

Lemma quiet_trans (s s1 s2 : Service) (c1 c2 : list HostCall) :
  quiet s (s1, c1) → quiet s1 (s2, c2) → quiet s (s2, c1 ++ c2).
Proof.
  intros [H1 H1'] [H2 H2']. simpl in *. split; simpl.
  - congruence.
  - rewrite connect_attempts_app. lia.
Qed.

Lemma try_autosave_quiet (s : Service) (now : Q) (d : Doc) :
  quiet s (snd (fst (try_autosave s now d)), snd (try_autosave s now d)).
Proof.
  destruct (try_autosave_cases s now d) as [E|[E|E]]; rewrite E; by split.
Qed.

Lemma try_autosave_quiet' (s s1 : Service) now d b c :
  try_autosave s now d = (b, s1, c) → quiet s (s1, c).
Proof. intros E. generalize (try_autosave_quiet s now d). by rewrite E. Qed.

Lemma on_document_before_close_quiet s now d :
  quiet s (on_document_before_close s now d).
Proof.
  unfold on_document_before_close.
  destruct (try_autosave s now d) as [[b s1] c] eqn:E.
  apply try_autosave_quiet' in E. destruct E as [E1 E2].
  destruct (handler_path d) as [[p|]|]; try by split.
  destruct (_ && _); by split.
Qed.

Lemma on_document_before_save_quiet s now d :
  quiet s (on_document_before_save s now d).
Proof.
  unfold on_document_before_save.
  destruct (handler_path d) as [[p|]|]; try apply quiet_refl.
  destruct (truthy _); by split.
Qed.

Lemma dispatch_quiet s now e : quiet s (dispatch s now e).
Proof.
  destruct e as [count active|sel|d|d|d]; simpl.
  - unfold on_document_change. destruct (word s); [|apply quiet_refl].
    destruct (get_active_document _ _) as [[d|]|]; try apply quiet_refl.
    destruct (try_autosave s now d) as [[b s1] c] eqn:E.
    by apply try_autosave_quiet' in E.
  - unfold on_window_selection_change.
    destruct sel as [[d|]| |]; try apply quiet_refl.
    destruct (try_autosave s now d) as [[b s1] c] eqn:E.
    by apply try_autosave_quiet' in E.
  - unfold on_document_open.
    destruct (try_autosave s now d) as [[b s1] c] eqn:E.
    by apply try_autosave_quiet' in E.
  - apply on_document_before_close_quiet.
  - apply on_document_before_save_quiet.
Qed.

Lemma process_events_quiet s pending : quiet s (process_events s pending).
Proof.
  revert s. induction pending as [|[now e] rest IH]; intros s; simpl.
  - apply quiet_refl.
  - destruct (dispatch s now e) as [s1 c1] eqn:E1.
    destruct (process_events s1 rest) as [s2 c2] eqn:E2.
    eapply quiet_trans.
    + rewrite <- E1. apply dispatch_quiet.
    + rewrite <- E2. apply IH.
Qed.

Lemma check_documents_quiet s env indices :
  quiet s (snd (fst (check_documents s env indices)),
           snd (check_documents s env indices)).
Proof.
  revert s. induction indices as [|i rest IH]; intros s; simpl.
  - apply quiet_refl.
  - destruct (Documents_Item env i) as [d|]; [|apply IH].
    destruct (try_autosave s (autosave_now env i) d) as [[b s1] c1] eqn:E1.
    destruct (check_documents s1 env rest) as [[n s2] c2] eqn:E2. simpl.
    eapply quiet_trans.
    + eapply try_autosave_quiet', E1.
    + generalize (IH s1). by rewrite E2.
Qed.

Lemma poll_documents_quiet s env : quiet s (poll_documents s env).
Proof.
  unfold poll_documents. destruct (Qgeb _ _); [|apply quiet_refl].
  destruct (check_all_documents s env) as [[n s1] c] eqn:E.
  assert (quiet s (s1, c)) as [H1 H2]; [|by split].
  unfold check_all_documents in E.
  destruct (word s); [|injection E as <- <- <-; apply quiet_refl].
  destruct (document_count _) as [count|];
    [|injection E as <- <- <-; apply quiet_refl].
  generalize (check_documents_quiet s env (seqZ 1 count)). by rewrite E.
Qed.

(** ** The connection state machine *)

Lemma conn_fields_inv (s s' : Service) :
  conn_fields s' = conn_fields s →
  config s' = config s ∧ word s' = word s ∧ connected s' = connected s
  ∧ reconnect_attempts s' = reconnect_attempts s.
Proof. unfold conn_fields. intros [= -> _ -> -> ->]. done. Qed.

(** A tick is its connection phase between two quiet phases. *)
Lemma tick_phases (s : Service) (env : TickEnv) :
  ∃ s1 c1 s4 c4,
    let s2 := snd (check_connection s1 (probe env)) in
    let r3 := handle_reconnect s2 (connect_env env) in
    quiet s (s1, c1) ∧ quiet (fst r3) (s4, c4)
    ∧ tick s env = (s4, c1 ++ snd r3 ++ c4).
Proof.
  unfold tick.
  destruct (process_events s (pending env)) as [s1 c1] eqn:E1.
  destruct (check_connection s1 (probe env)) as [b s2] eqn:E2.
  destruct (handle_reconnect s2 (connect_env env)) as [s3 c3] eqn:E3.
  destruct (poll_documents s3 (poll_env env)) as [s4 c4] eqn:E4.
  exists s1, c1, s4, c4. simpl. rewrite E2. simpl. rewrite E3. simpl.
  split; [|split; [|done]].
  - rewrite <- E1. apply process_events_quiet.
  - rewrite <- E4. apply poll_documents_quiet.
Qed.

Lemma connect_to_word_threshold s env :
  reconnect_threshold (config (snd (fst (connect_to_word s env))))
  = reconnect_threshold (config s).
Proof.
  unfold connect_to_word.
  destruct (word_app s), (ensure_dispatch env), (dispatch_with_events env);
    done.
Qed.

Lemma connect_to_word_attempts s env :
  reconnect_attempts (snd (fst (connect_to_word s env)))
  = reconnect_attempts s.
Proof.
  unfold connect_to_word.
  destruct (word_app s), (ensure_dispatch env), (dispatch_with_events env);
    done.
Qed.

(** The result of [connect_to_word] is the success of [EnsureDispatch]; it
    is also the connection flag it leaves, and a success leaves a wrapper. *)
Lemma connect_to_word_result s env :
  let r := connect_to_word s env in
  fst (fst r) = bool_decide (is_Some (ensure_dispatch env))
  ∧ connected (snd (fst r)) = fst (fst r)
  ∧ (fst (fst r) = true → is_Some (word (snd (fst r))))
  ∧ connect_attempts (snd r) = 1%nat.
Proof.
  unfold connect_to_word.
  destruct (word_app s), (ensure_dispatch env), (dispatch_with_events env);
    simpl; repeat split; try done; by eexists.
Qed.

(** [_handle_reconnect] on a disconnected service, below the threshold. *)
Lemma handle_reconnect_waits s env :
  connected s = false →
  (reconnect_attempts s + 1 ≤ reconnect_threshold (config s))%Z →
  handle_reconnect s env
  = (set_reconnect_attempts (reconnect_attempts s + 1)%Z s, []).
Proof.
  intros Hc Hle. unfold handle_reconnect. rewrite Hc. simpl.
  by rewrite (proj2 (Z.ltb_ge _ _) Hle).
Qed.

(** [_handle_reconnect] on a disconnected service, past the threshold. *)
Lemma handle_reconnect_connects s env :
  connected s = false →
  (reconnect_threshold (config s) < reconnect_attempts s + 1)%Z →
  let r := handle_reconnect s env in
  connect_attempts (snd r) = 1%nat
  ∧ reconnect_threshold (config (fst r)) = reconnect_threshold (config s)
  ∧ match ensure_dispatch env with
    | Some _ => connected (fst r) = true ∧ reconnect_attempts (fst r) = 0%Z
                ∧ is_Some (word (fst r))
    | None => connected (fst r) = false
              ∧ reconnect_attempts (fst r) = (reconnect_attempts s + 1)%Z
    end.
Proof.
  intros Hc Hlt. unfold handle_reconnect. rewrite Hc. simpl.
  rewrite (proj2 (Z.ltb_lt _ _) Hlt).
  set (s1 := set_reconnect_attempts _ s).
  pose proof (connect_to_word_result s1 env) as (Hr & Hcn & Hw & Hn).
  pose proof (connect_to_word_threshold s1 env) as Ht.
  pose proof (connect_to_word_attempts s1 env) as Ha.
  destruct (connect_to_word s1 env) as [[ok s2] c]. simpl in *.
  destruct (ensure_dispatch env) as [app|]; simpl in Hr; subst ok; simpl.
  - repeat split; auto.
  - repeat split; auto.
Qed.

(** The state after a failed liveness check. *)
Lemma check_connection_fails s env :
  check_fails s env →
  let s2 := snd (check_connection s (probe env)) in
  connected s2 = false ∧ config s2 = config s
  ∧ reconnect_attempts s2 = reconnect_attempts s.
Proof.
  intros [Hc|[Hw Hp]]; unfold check_connection.
  - by rewrite Hc.
  - rewrite Hp. rewrite (bool_decide_eq_true_2 _ Hw).
    destruct (connected s) eqn:E; simpl; by rewrite ?E.
Qed.

(** A tick whose liveness check fails, with the counter still below the
    threshold: the counter goes up by one and no connect is attempted. *)
Lemma tick_waits s env :
  check_fails s env →
  (reconnect_attempts s + 1 ≤ reconnect_threshold (config s))%Z →
  let r := tick s env in
  connected (fst r) = false
  ∧ reconnect_attempts (fst r) = (reconnect_attempts s + 1)%Z
  ∧ config (fst r) = config s
  ∧ connect_attempts (snd r) = 0%nat.
Proof.
  intros Hf Hle.
  destruct (tick_phases s env) as (s1 & c1 & s4 & c4 & [Hq1 Hn1] & [Hq4 Hn4] & ->).
  simpl in *. apply conn_fields_inv in Hq1 as (Hcfg & Hw & Hc & Ha).
  assert (check_fails s1 env) as Hf1.
  { destruct Hf as [?|[? ?]]; [left|right]; by rewrite ?Hc, ?Hw. }
  apply check_connection_fails in Hf1 as (Hc2 & Hcfg2 & Ha2).
  set (s2 := snd (check_connection s1 (probe env))) in *.
  rewrite handle_reconnect_waits in Hq4 |- *
    by (rewrite ?Hcfg2, ?Ha2, ?Hcfg, ?Ha; done).
  apply conn_fields_inv in Hq4 as (Hcfg4 & Hw4 & Hc4 & Ha4). simpl in *.
  rewrite Hc4, Ha4, Hcfg4, Hc2, Ha2, Hcfg2, Ha, Hcfg.
  rewrite !connect_attempts_app, Hn1, Hn4. done.
Qed.

(** A tick whose liveness check fails, with the counter at or past the
    threshold: exactly one connect is attempted; it resets the counter
    when it succeeds and leaves it incremented when it fails. *)
Lemma tick_reconnects s env :
  check_fails s env →
  (reconnect_threshold (config s) < reconnect_attempts s + 1)%Z →
  let r := tick s env in
  connect_attempts (snd r) = 1%nat
  ∧ reconnect_threshold (config (fst r)) = reconnect_threshold (config s)
  ∧ match ensure_dispatch (connect_env env) with
    | Some _ => connected (fst r) = true ∧ reconnect_attempts (fst r) = 0%Z
                ∧ is_Some (word (fst r))
    | None => connected (fst r) = false
              ∧ reconnect_attempts (fst r) = (reconnect_attempts s + 1)%Z
    end.
Proof.
  intros Hf Hlt.
  destruct (tick_phases s env) as (s1 & c1 & s4 & c4 & [Hq1 Hn1] & [Hq4 Hn4] & ->).
  simpl in *. apply conn_fields_inv in Hq1 as (Hcfg & Hw & Hc & Ha).
  assert (check_fails s1 env) as Hf1.
  { destruct Hf as [?|[? ?]]; [left|right]; by rewrite ?Hc, ?Hw. }
  apply check_connection_fails in Hf1 as (Hc2 & Hcfg2 & Ha2).
  set (s2 := snd (check_connection s1 (probe env))) in *.
  destruct (handle_reconnect_connects s2 (connect_env env)) as (Hn & Ht & Hm);
    [done | by rewrite Hcfg2, Ha2, Hcfg, Ha |].
  apply conn_fields_inv in Hq4 as (Hcfg4 & Hw4 & Hc4 & Ha4).
  rewrite !connect_attempts_app, Hn1, Hn4, Hn, Hcfg4, Ht, Hcfg2, Hcfg.
  split; [done | split; [done |]].
  destruct (ensure_dispatch (connect_env env)).
  - by rewrite Hc4, Ha4, Hw4.
  - by rewrite Hc4, Ha4, <- Ha, <- Ha2.
Qed.

(** A tick whose liveness check succeeds, or that finds the service
    connected without a wrapper, leaves the connection fields alone. *)
Lemma tick_steady s env :
  connected s = true →
  word s = None ∨ probe env = Returns →
  quiet s (tick s env).
Proof.
  intros Hc Hok.
  destruct (tick_phases s env) as (s1 & c1 & s4 & c4 & Hq1 & Hq4 & ->).
  simpl in *.
  pose proof Hq1 as [Hf1 _]. apply conn_fields_inv in Hf1 as (_ & Hw & Hc1 & _).
  simpl in *. rewrite Hc in Hc1.
  assert (check_connection s1 (probe env) = (false, s1)
          ∨ check_connection s1 (probe env) = (true, s1)) as Hck.
  { unfold check_connection. rewrite Hc1. simpl.
    destruct Hok as [Hn|Hp].
    - rewrite Hw, Hn. left. done.
    - rewrite Hp. destruct (bool_decide _); auto. }
  assert (snd (check_connection s1 (probe env)) = s1) as Hs2
    by (destruct Hck as [-> | ->]; done).
  rewrite Hs2 in *.
  assert (handle_reconnect s1 (connect_env env) = (s1, [])) as Hh
    by (unfold handle_reconnect; by rewrite Hc1).
  rewrite Hh in *. simpl in *.
  eapply quiet_trans; [exact Hq1 | exact Hq4].
Qed.

(** Every tick either fails its liveness check or is steady. *)
Lemma tick_check_cases s env :
  check_fails s env
  ∨ (connected s = true ∧ (word s = None ∨ probe env = Returns)).
Proof.
  unfold check_fails. destruct (connected s); [|auto].
  destruct (word s) as [w|]; [|auto].
  destruct (probe env); [auto|]. left; right. split; [by eexists | done].
Qed.

(** Consecutive ticks of a disconnected service, as long as the counter
    stays within the threshold. *)
Lemma ticks_wait s envs :
  connected s = false →
  (reconnect_attempts s + Z.of_nat (length envs)
   ≤ reconnect_threshold (config s))%Z →
  let r := ticks s envs in
  connected (fst r) = false
  ∧ reconnect_attempts (fst r)
    = (reconnect_attempts s + Z.of_nat (length envs))%Z
  ∧ config (fst r) = config s
  ∧ connect_attempts (snd r) = 0%nat.
Proof.
  revert s. induction envs as [|env rest IH]; intros s Hc Hle; simpl in *.
  - repeat split; try done. lia.
  - destruct (tick_waits s env) as (Hc1 & Ha1 & Hcfg1 & Hn1);
      [by left | lia |].
    destruct (tick s env) as [s1 c1]. simpl in *.
    destruct (IH s1) as (Hc2 & Ha2 & Hcfg2 & Hn2);
      [done | rewrite Ha1, Hcfg1; lia |].
    destruct (ticks s1 rest) as [s2 c2]. simpl in *.
    rewrite connect_attempts_app, Hn1, Hn2, Hc2, Ha2, Ha1, Hcfg2, Hcfg1.
    repeat split; try done. lia.
Qed.

Lemma startup_invariant cfg env : conn_invariant cfg (startup cfg env).
Proof.
  unfold startup, connect_to_word, conn_invariant. simpl.
  destruct (ensure_dispatch env), (dispatch_with_events env); simpl;
    repeat split; try done; by eexists.
Qed.

Lemma tick_invariant cfg s env :
  conn_invariant cfg s → conn_invariant cfg (fst (tick s env)).
Proof.
  intros (Hpos & Hconn & Hthr). unfold conn_invariant.
  destruct (tick_check_cases s env) as [Hf|[Hc Hok]].
  - destruct (Z_lt_le_dec (reconnect_threshold (config s))
                (reconnect_attempts s + 1)) as [Hlt|Hle].
    + destruct (tick_reconnects s env Hf Hlt) as (_ & Ht & Hm).
      rewrite Ht, Hthr.
      destruct (ensure_dispatch (connect_env env)).
      * destruct Hm as (-> & -> & Hw). repeat split; done.
      * destruct Hm as (-> & ->). repeat split; try done. lia.
    + destruct (tick_waits s env Hf Hle) as (-> & -> & -> & _).
      repeat split; try done. lia.
  - destruct (tick_steady s env Hc Hok) as [Hq _].
    apply conn_fields_inv in Hq as (-> & -> & -> & ->). done.
Qed.

Lemma reachable_invariant cfg s : reachable cfg s → conn_invariant cfg s.
Proof.
  induction 1 as [env|s env _ IH].
  - apply startup_invariant.
  - by apply tick_invariant.
Qed.

(** In one tick the counter is kept, incremented, or reset by a connect
    that succeeded. *)
Lemma tick_counter s env :
  let r := tick s env in
  reconnect_attempts (fst r) = reconnect_attempts s
  ∨ (reconnect_attempts (fst r) = (reconnect_attempts s + 1)%Z
     ∧ connected (fst r) = false)
  ∨ (reconnect_attempts (fst r) = 0%Z ∧ connected (fst r) = true
     ∧ is_Some (ensure_dispatch (connect_env env))
     ∧ connect_attempts (snd r) = 1%nat).
Proof.
  destruct (tick_check_cases s env) as [Hf|[Hc Hok]].
  - destruct (Z_lt_le_dec (reconnect_threshold (config s))
                (reconnect_attempts s + 1)) as [Hlt|Hle].
    + destruct (tick_reconnects s env Hf Hlt) as (Hn & _ & Hm).
      destruct (ensure_dispatch (connect_env env)).
      * destruct Hm as (Ha & Hb & _). right; right. by repeat split.
      * destruct Hm as (Ha & Hb). right; left. done.
    + destruct (tick_waits s env Hf Hle) as (Ha & Hb & _). right; left. done.
  - destruct (tick_steady s env Hc Hok) as [Hq _].
    apply conn_fields_inv in Hq as (_ & _ & _ & Ha). by left.
Qed.

(** On a disconnected service a tick never keeps the counter. *)
Lemma tick_counter_disconnected s env :
  connected s = false →
  let r := tick s env in
  (reconnect_attempts (fst r) = (reconnect_attempts s + 1)%Z
   ∧ connected (fst r) = false)
  ∨ (reconnect_attempts (fst r) = 0%Z ∧ connected (fst r) = true
     ∧ is_Some (ensure_dispatch (connect_env env))
     ∧ connect_attempts (snd r) = 1%nat).
Proof.
  intros Hc. assert (check_fails s env) as Hf by (by left).
  destruct (Z_lt_le_dec (reconnect_threshold (config s))
              (reconnect_attempts s + 1)) as [Hlt|Hle].
  - destruct (tick_reconnects s env Hf Hlt) as (Hn & _ & Hm).
    destruct (ensure_dispatch (connect_env env)).
    + destruct Hm as (Ha & Hb & _). right. by repeat split.
    + destruct Hm as (Ha & Hb). left. done.
  - destruct (tick_waits s env Hf Hle) as (Ha & Hb & _). left. done.
Qed.

(** C3: the connection state machine.
    (1) A liveness probe that fails on a connected service sets it
        disconnected.
    (2) While disconnected, every tick adds one to the counter, and no
        connect is attempted as long as the counter does not exceed
        [reconnect_threshold].
    (3) From a connected state of a run, over [reconnect_threshold + 1]
        ticks that start with a failed probe: the first
        [reconnect_threshold] ticks make no connect attempt and count up to
        the threshold, and the last one makes exactly one; when it succeeds
        the service is connected with the counter at 0, when it fails the
        service stays disconnected with the counter past the threshold.
    (4) A tick keeps the counter, adds one to it, or sets it to 0 together
        with a connect that succeeded: nothing else resets it.  On a
        disconnected service it never keeps it. *)
Theorem connection_state_machine :
  (∀ s : Service,
     connected s = true → is_Some (word s) →
     check_connection s Throws = (false, set_connected false s))
  ∧ (∀ (s : Service) (envs : list TickEnv),
       connected s = false →
       (reconnect_attempts s + Z.of_nat (length envs)
        ≤ reconnect_threshold (config s))%Z →
       connected (fst (ticks s envs)) = false
       ∧ reconnect_attempts (fst (ticks s envs))
         = (reconnect_attempts s + Z.of_nat (length envs))%Z
       ∧ connect_attempts (snd (ticks s envs)) = 0%nat)
  ∧ (∀ (cfg : Config) (s : Service) (pre : list TickEnv) (last : TickEnv),
       reachable cfg s →
       connected s = true →
       (∀ e, head (pre ++ [last]) = Some e → probe e = Throws) →
       Z.of_nat (length pre) = reconnect_threshold (config s) →
       let r1 := ticks s pre in
       let r2 := tick (fst r1) last in
       connect_attempts (snd r1) = 0%nat
       ∧ reconnect_attempts (fst r1) = reconnect_threshold (config s)
       ∧ (pre ≠ [] → connected (fst r1) = false)
       ∧ connect_attempts (snd r2) = 1%nat
       ∧ match ensure_dispatch (connect_env last) with
         | Some _ => connected (fst r2) = true
                     ∧ reconnect_attempts (fst r2) = 0%Z
         | None => connected (fst r2) = false
                   ∧ reconnect_attempts (fst r2)
                     = (reconnect_threshold (config s) + 1)%Z
         end)
  ∧ (∀ (s : Service) (env : TickEnv),
       reconnect_attempts (fst (tick s env)) = reconnect_attempts s
       ∨ (reconnect_attempts (fst (tick s env))
          = (reconnect_attempts s + 1)%Z
          ∧ connected (fst (tick s env)) = false)
       ∨ (reconnect_attempts (fst (tick s env)) = 0%Z
          ∧ connected (fst (tick s env)) = true
          ∧ is_Some (ensure_dispatch (connect_env env))
          ∧ connect_attempts (snd (tick s env)) = 1%nat))
  ∧ (∀ (s : Service) (env : TickEnv),
       connected s = false →
       (reconnect_attempts (fst (tick s env))
        = (reconnect_attempts s + 1)%Z
        ∧ connected (fst (tick s env)) = false)
       ∨ (reconnect_attempts (fst (tick s env)) = 0%Z
          ∧ connected (fst (tick s env)) = true
          ∧ is_Some (ensure_dispatch (connect_env env))
          ∧ connect_attempts (snd (tick s env)) = 1%nat)).
Proof.
  split; [|split; [|split; [|split]]].
  - intros s Hc Hw. unfold check_connection.
    by rewrite Hc, (bool_decide_eq_true_2 _ Hw).
  - intros s envs Hc Hle.
    destruct (ticks_wait s envs Hc Hle) as (H1 & H2 & _ & H3). done.
  - intros cfg s pre last Hr Hc Hp Hlen.
    destruct (reachable_invariant cfg s Hr) as (_ & Hconn & _).
    destruct (Hconn Hc) as [Ha Hw].
    destruct pre as [|e rest]; simpl in Hlen |- *.
    + assert (check_fails s last) as Hf
        by (right; split; [done | by apply Hp]).
      destruct (tick_reconnects s last Hf) as (Hn & _ & Hm); [lia|].
      rewrite Ha in Hm. rewrite <- Hlen, Ha.
      repeat split; try done.
      destruct (ensure_dispatch (connect_env last));
        [destruct Hm as (Hm1 & Hm2 & _) | destruct Hm as (Hm1 & Hm2)];
        split; assumption.
    + assert (check_fails s e) as Hf
        by (right; split; [done | by apply Hp]).
      destruct (tick_waits s e Hf) as (Hc1 & Ha1 & Hcfg1 & Hn1); [lia|].
      destruct (tick s e) as [s1 c1]. simpl in *.
      destruct (ticks_wait s1 rest Hc1) as (Hc2 & Ha2 & Hcfg2 & Hn2);
        [rewrite Ha1, Hcfg1; lia|].
      destruct (ticks s1 rest) as [s2 c2]. simpl in *.
      assert (reconnect_attempts s2 = reconnect_threshold (config s)) as Ha3
        by (rewrite Ha2, Ha1; lia).
      destruct (tick_reconnects s2 last) as (Hn & _ & Hm);
        [by left | rewrite Hcfg2, Hcfg1, Ha3; lia |].
      rewrite connect_attempts_app, Hn1, Hn2.
      repeat split; try done.
      rewrite Ha3 in Hm.
      destruct (ensure_dispatch (connect_env last));
        [destruct Hm as (Hm1 & Hm2 & _) | destruct Hm as (Hm1 & Hm2)];
        split; assumption.
  - intros s env. apply tick_counter.
  - intros s env Hc. by apply tick_counter_disconnected.
Qed.

(** The scenario of the specification behind C3, with the default
    threshold 20: after a start with Word available, the probe fails; the
    ticks 1 to 20 attempt no connect and the 21st attempts exactly one,
    which succeeds and resets the counter. *)
Lemma connection_state_machine_witness :
  let s := startup DEFAULT_CONFIG word_with_events in
  let pre := replicate 20 (quiet_tick Throws no_word 0) in
  let last := quiet_tick Throws word_with_events 0 in
  check_connection s Throws = (false, set_connected false s)
  ∧ connect_attempts (snd (ticks (set_connected false s) (take 5 pre))) = 0%nat
  ∧ reconnect_attempts (fst (ticks (set_connected false s) (take 5 pre))) = 5%Z
  ∧ connect_attempts (snd (ticks s pre)) = 0%nat
  ∧ reconnect_attempts (fst (ticks s pre)) = 20%Z
  ∧ connected (fst (ticks s pre)) = false
  ∧ connect_attempts (snd (tick (fst (ticks s pre)) last)) = 1%nat
  ∧ connected (fst (tick (fst (ticks s pre)) last)) = true
  ∧ reconnect_attempts (fst (tick (fst (ticks s pre)) last)) = 0%Z.
Proof.
  intros s pre last.
  destruct connection_state_machine as (P1 & P2 & P3 & _ & _).
  assert (connected s = true) as Hc by reflexivity.
  assert (is_Some (word s)) as Hw by (by eexists).
  assert (reachable DEFAULT_CONFIG s) as Hr by apply reachable_startup.
  assert (∀ e, head (pre ++ [last]) = Some e → probe e = Throws) as Hp
    by (by intros e [= <-]).
  assert (Z.of_nat (length pre) = reconnect_threshold (config s)) as Hl
    by reflexivity.
  destruct (P2 (set_connected false s) (take 5 pre)) as (_ & A2 & A1);
    [reflexivity | by vm_compute |].
  destruct (P3 DEFAULT_CONFIG s pre last Hr Hc Hp Hl)
    as (B1 & B2 & B3 & B4 & B5).
  split; [exact (P1 s Hc Hw)|].
  split; [exact A1|]. split; [exact A2|].
  split; [exact B1|]. split; [exact B2|].
  split; [apply B3; discriminate|].
  split; [exact B4|]. exact B5.
Defined.

(** ** Polling-only mode *)

(** The only write of [polling_interval] is the clamp of
    [connect_to_word]. *)
Lemma connect_to_word_polling s env :
  let p := polling_interval (config s) in
  let p' := polling_interval (config (snd (fst (connect_to_word s env)))) in
  p' = p ∨ p' = py_min p 5.
Proof.
  unfold connect_to_word.
  destruct (word_app s), (ensure_dispatch env), (dispatch_with_events env);
    simpl; auto.
Qed.

Lemma handle_reconnect_polling s env :
  let p := polling_interval (config s) in
  let p' := polling_interval (config (fst (handle_reconnect s env))) in
  p' = p ∨ p' = py_min p 5.
Proof.
  unfold handle_reconnect. destruct (connected s); [by left|].
  destruct (_ <? _)%Z; [|by left].
  set (s1 := set_reconnect_attempts _ s).
  pose proof (connect_to_word_polling s1 env) as H.
  destruct (connect_to_word s1 env) as [[[] s2] c]; exact H.
Qed.

Lemma check_connection_config s p :
  config (snd (check_connection s p)) = config s.
Proof.
  unfold check_connection. destruct (_ || _); [done|]. by destruct p.
Qed.

Lemma tick_polling s env :
  let p := polling_interval (config s) in
  let p' := polling_interval (config (fst (tick s env))) in
  p' = p ∨ p' = py_min p 5.
Proof.
  destruct (tick_phases s env) as (s1 & c1 & s4 & c4 & [Hq1 _] & [Hq4 _] & ->).
  simpl in *.
  apply conn_fields_inv in Hq1 as (Hcfg1 & _).
  apply conn_fields_inv in Hq4 as (Hcfg4 & _).
  rewrite Hcfg4, <- Hcfg1, <- (check_connection_config s1 (probe env)).
  apply handle_reconnect_polling.
Qed.

(** Once clamped, the interval stays what it is. *)
Lemma ticks_polling_clamped s envs p :
  polling_interval (config s) = py_min p 5 →
  polling_interval (config (fst (ticks s envs))) = py_min p 5.
Proof.
  revert s. induction envs as [|env rest IH]; intros s Hp; simpl; [done|].
  pose proof (tick_polling s env) as Ht.
  destruct (tick s env) as [s1 c1]. simpl in Ht.
  specialize (IH s1). destruct (ticks s1 rest) as [s2 c2]. simpl in *.
  apply IH. destruct Ht as [-> | ->]; [done|].
  rewrite Hp. apply py_min_idemp.
Qed.

(** C6: when [EnsureDispatch] succeeds and the registration of the event
    handlers fails, [connect_to_word] returns [True] and leaves the service
    connected, on the plain application object, with [polling_interval] set
    to the minimum of its former value and 5; no later tick changes that
    value again. *)
Theorem connect_polling_only (s : Service) (env : ConnectEnv) (app : Z) :
  ensure_dispatch env = Some app →
  dispatch_with_events env = Throws →
  let s' := snd (fst (connect_to_word s env)) in
  fst (fst (connect_to_word s env)) = true
  ∧ connected s' = true
  ∧ word_app s' = Some (Plain app)
  ∧ polling_interval (config s') = Qmin (polling_interval (config s)) 5
  ∧ ∀ envs : list TickEnv,
      polling_interval (config (fst (ticks s' envs)))
      = Qmin (polling_interval (config s)) 5.
Proof.
  intros He Hd.
  assert (polling_interval (config (snd (fst (connect_to_word s env))))
          = py_min (polling_interval (config s)) 5) as Hp.
  { unfold connect_to_word. rewrite He, Hd. by destruct (word_app s). }
  simpl. rewrite <- py_min_Qmin. repeat split.
  - unfold connect_to_word. by rewrite He, Hd.
  - unfold connect_to_word. by rewrite He, Hd.
  - unfold connect_to_word. rewrite He, Hd. by destruct (word_app s).
  - exact Hp.
  - intros envs. by apply ticks_polling_clamped.
Qed.

Lemma connect_polling_only_witness :
  let s' := snd (fst (connect_to_word fresh word_without_events)) in
  ensure_dispatch word_without_events = Some 1%Z
  ∧ dispatch_with_events word_without_events = Throws
  ∧ fst (fst (connect_to_word fresh word_without_events)) = true
  ∧ connected s' = true
  ∧ polling_interval (config s') = 5
  ∧ polling_interval
      (config (fst (ticks s' [quiet_tick Throws word_with_events 30])))
    = 5.
Proof.
  intros s'.
  destruct (connect_polling_only fresh word_without_events 1 eq_refl eq_refl)
    as (H1 & H2 & _ & H4 & H5).
  split; [reflexivity | split; [reflexivity |]].
  split; [exact H1 | split; [exact H2 | split]].
  - exact H4.
  - exact (H5 _).
Defined.

(** ** Document identity *)

Lemma set_last_save_times_id (s : Service) :
  set_last_save_times (λ m, m) s = s.
Proof. by destruct s. Qed.

Lemma on_document_before_save_key s now d :
  on_document_before_save s now d
  = (match handler_key d with
     | Some k => set_last_save_times (<[k := now]>) s
     | None => s
     end, []).
Proof.
  unfold on_document_before_save, handler_key.
  destruct (handler_path d) as [[p|]|]; try done.
  by destruct (truthy (Some p)).
Qed.

Lemma on_document_before_close_key s now d :
  on_document_before_close s now d
  = (match handler_key d with
     | Some k => set_last_save_times (delete k) (snd (fst (try_autosave s now d)))
     | None => snd (fst (try_autosave s now d))
     end, snd (try_autosave s now d)).
Proof.
  unfold on_document_before_close, handler_key.
  destruct (try_autosave s now d) as [[b s1] c]. simpl.
  destruct (handler_path d) as [[p|]|]; try done.
  destruct (truthy (Some p)); simpl; [|done].
  unfold contains. case_bool_decide as Hin; [done|].
  f_equal. destruct s1 as [cfg m wa w cn lp ra rn].
  unfold set_last_save_times. simpl in *. f_equal.
  symmetry. apply delete_id. by apply eq_None_not_Some.
Qed.

Lemma handler_key_Some d p :
  FullName d = Val p → p ≠ EmptyString → Name d ≠ Raises →
  handler_key d = Some p.
Proof.
  intros Hf Hp Hn. unfold handler_key, handler_path. rewrite Hf. simpl.
  apply String.eqb_neq in Hp.
  destruct (Name d); simpl; unfold truthy; by rewrite ?Hp.
Qed.

Lemma handler_key_inv d k :
  handler_key d = Some k →
  FullName d = Val k ∧ k ≠ EmptyString ∧ Name d ≠ Raises.
Proof.
  unfold handler_key, handler_path.
  destruct (FullName d) as [p| |], (Name d); simpl; try done.
  all: unfold truthy.
  all: destruct (String.eqb p EmptyString) eqn:E; simpl; try done.
  all: intros [= <-]; apply String.eqb_neq in E; done.
Qed.

Lemma autosave_path_full d p :
  FullName d = Val p → Name d ≠ Raises → autosave_path d = p.
Proof.
  intros Hf Hn. unfold autosave_path, autosave_identity. rewrite Hf.
  by destruct (Name d).
Qed.

(** When the read of [Name] raises another exception than
    [AttributeError], the first [try] block of [try_autosave] falls back to
    the synthetic identifier although the full path is readable. *)
Example autosave_path_name_raises :
  autosave_path (with_Name Raises report_doc) = "Unknown_7"%string
  ∧ handler_key (with_Name Raises report_doc) = None.
Proof. by vm_compute. Qed.




(** ** The before-close and before-save notifications *)




(** C5 as the specification words it fails: for a document without a
    readable full path the before-save handler records nothing, under no
    key. *)
Lemma before_save_counterexample :
  let r := on_document_before_save fresh 11 pathless_doc in
  ¬ (last_save_times (fst r) !! spec_DocumentIdentity pathless_doc = Some 11)
  ∧ fst r = fresh.
Proof.
  split; [|reflexivity]. intros H. vm_compute in H. discriminate.
Qed.

(** C5, as the code has it: the before-save handler issues no call on the
    host, so no [Save] and no run of [try_autosave], and changes nothing of
    the service but [last_save_times]; for a document with a readable name
    and a readable, non-empty full path it sets the entry of that path,
    which is the one [try_autosave] uses, to the current time and leaves
    the other entries alone; for any other document it changes nothing. *)
Theorem before_save_records_only (s : Service) (now : Q) (d : Doc) :
  let r := on_document_before_save s now d in
  snd r = []
  ∧ fst r = set_last_save_times (λ _, last_save_times (fst r)) s
  ∧ (∀ p : string,
       FullName d = Val p → p ≠ EmptyString → Name d ≠ Raises →
       fst r = set_last_save_times (<[p := now]>) s
       ∧ autosave_path d = p
       ∧ last_save_times (fst r) !! p = Some now
       ∧ ∀ k : string, k ≠ p →
           last_save_times (fst r) !! k = last_save_times s !! k)
  ∧ (handler_key d = None → fst r = s).
Proof.
  simpl. rewrite on_document_before_save_key. simpl.
  split; [done|]. split; [by destruct (handler_key d), s|]. split.
  - intros p Hf Hp Hn. rewrite (handler_key_Some d p Hf Hp Hn). simpl.
    split; [done|]. split; [by apply autosave_path_full|].
    split; [apply lookup_insert_eq|].
    intros k Hk. by apply lookup_insert_ne.
  - by intros ->.
Qed.

Lemma before_save_records_only_witness :
  on_document_before_save fresh 3 report_doc
  = (set_last_save_times (<["C:\docs\report.docx"%string := 3]>) fresh, [])
  ∧ on_document_before_save fresh 3 pathless_doc = (fresh, []).
Proof.
  destruct (before_save_records_only fresh 3 report_doc) as (H1 & _ & H3 & _).
  destruct (before_save_records_only fresh 3 pathless_doc) as (G1 & _ & _ & G4).
  destruct (H3 "C:\docs\report.docx"%string) as (H3a & _);
    [reflexivity | discriminate | discriminate |].
  split.
  - rewrite (surjective_pairing (on_document_before_save fresh 3 report_doc)).
    by rewrite H1, H3a.
  - rewrite (surjective_pairing (on_document_before_save fresh 3 pathless_doc)).
    by rewrite G1, G4.
Defined.

(** * Further properties of the code *)

(** ** [try_autosave] *)



(** X2: with [debounce_seconds] at 0 or below there is no debouncing: a
    document that is not known to be saved gets a call of [Save] on every
    check whose clock value is not before its last recorded save. *)
Theorem debounce_disabled (s : Service) (now : Q) (d : Doc) :
  debounce_seconds (config s) <= 0 →
  last_time s (autosave_path d) <= now →
  Saved d ≠ Some true →
  snd (try_autosave s now d) = [SaveCall (doc_id d)].
Proof.
  intros Hdeb Hmono Hd. unfold try_autosave.
  assert (Qltb (now - last_time s (autosave_path d))
            (debounce_seconds (config s)) = false) as ->
    by (apply Qltb_ge; lra).
  destruct (Saved d) as [[]|]; [done| |]; by destruct (Save d).
Qed.

Lemma debounce_disabled_witness :
  let s1 := snd (fst (try_autosave no_debounce 3 report_doc)) in
  snd (try_autosave no_debounce 3 report_doc) = [SaveCall 7]
  ∧ snd (try_autosave s1 3 report_doc) = [SaveCall 7].
Proof.
  split.
  - apply debounce_disabled; [by vm_compute | by vm_compute | discriminate].
  - apply debounce_disabled; [by vm_compute | by vm_compute | discriminate].
Defined.

(** ** The notification handlers *)

Lemma only_touches_refl (k : string) (s : Service) : only_touches k s (s, []).
Proof. split; [by destruct s | split; [done | by left]]. Qed.

Lemma try_autosave_only_touches (s : Service) (now : Q) (d : Doc) :
  only_touches (autosave_path d) s
    (snd (fst (try_autosave s now d)), snd (try_autosave s now d)).
Proof.
  destruct (try_autosave_cases s now d) as [E|[E|E]]; rewrite E; simpl.
  - apply only_touches_refl.
  - split; [by destruct s | split; [done | right; by eexists]].
  - split; [by destruct s | split; [|right; by eexists]].
    intros k' Hk. simpl. by rewrite lookup_insert_ne.
Qed.

Lemma dispatch_effects_aux (s : Service) (now : Q) (e : Event) :
  ∃ k : string, only_touches k s (dispatch s now e).
Proof.
  destruct e as [count active|sel|d|d|d]; simpl.
  - unfold on_document_change. destruct (word s);
      [|exists EmptyString; apply only_touches_refl].
    destruct (get_active_document _ _) as [[d|]|];
      try (exists EmptyString; apply only_touches_refl).
    exists (autosave_path d).
    pose proof (try_autosave_only_touches s now d) as H.
    by destruct (try_autosave s now d) as [[b s1] c].
  - unfold on_window_selection_change.
    destruct sel as [[d|]| |];
      try (exists EmptyString; apply only_touches_refl).
    exists (autosave_path d).
    pose proof (try_autosave_only_touches s now d) as H.
    by destruct (try_autosave s now d) as [[b s1] c].
  - unfold on_document_open. exists (autosave_path d).
    pose proof (try_autosave_only_touches s now d) as H.
    by destruct (try_autosave s now d) as [[b s1] c].
  - exists (autosave_path d). rewrite on_document_before_close_key.
    destruct (try_autosave_only_touches s now d) as (H1 & H2 & H3).
    destruct (handler_key d) as [k|] eqn:Hk; [|done].
    apply handler_key_inv in Hk as (Hf & _ & Hn).
    rewrite <- (autosave_path_full d k Hf Hn).
    simpl in *. split; [|split; [|done]]; simpl.
    + rewrite H1. by destruct s.
    + intros k' Hk'. rewrite lookup_delete_ne by done. by apply H2.
  - rewrite on_document_before_save_key.
    destruct (handler_key d) as [k|];
      [|exists EmptyString; apply only_touches_refl].
    exists k. split; [by destruct s | split; [|by left]].
    intros k' Hk'. simpl. by rewrite lookup_insert_ne.
Qed.




(** X5: closing a document forgets its debounce window.  After the
    before-close notification for a document with a readable name and a
    readable, non-empty full path, the next [try_autosave] on a document
    with that path which is not known to be saved calls [Save] as soon as
    the clock itself has reached [debounce_seconds], however recently the
    document was saved before it was closed. *)
Theorem close_forgets_debounce
    (s : Service) (now t : Q) (d d' : Doc) (p : string) :
  FullName d = Val p → p ≠ EmptyString → Name d ≠ Raises →
  autosave_path d' = p →
  Saved d' ≠ Some true →
  debounce_seconds (config s) <= t →
  let s' := fst (on_document_before_close s now d) in
  last_save_times s' !! p = None
  ∧ snd (try_autosave s' t d') = [SaveCall (doc_id d')].
Proof.
  intros Hf Hp Hn Hk Hd Hge. simpl.
  rewrite on_document_before_close_key, (handler_key_Some d p Hf Hp Hn). simpl.
  split; [apply lookup_delete_eq|].
  assert (config (snd (fst (try_autosave s now d))) = config s) as Hcfg.
  { destruct (try_autosave_cases s now d) as [E|[E|E]]; by rewrite E. }
  set (s1 := snd (fst (try_autosave s now d))) in *. clearbody s1.
  unfold try_autosave, last_time. simpl. rewrite Hk, lookup_delete_eq, Hcfg.
  simpl.
  assert (Qltb (t - 0) (debounce_seconds (config s)) = false) as ->
    by (apply Qltb_ge; lra).
  destruct (Saved d') as [[]|]; [done| |]; by destruct (Save d').
Qed.

Lemma close_forgets_debounce_witness :
  let s1 := snd (fst (try_autosave fresh 100 report_doc)) in
  let s2 := fst (on_document_before_close s1 101 report_doc) in
  last_save_times s1 !! "C:\docs\report.docx"%string = Some 100
  ∧ last_save_times s2 !! "C:\docs\report.docx"%string = None
  ∧ snd (try_autosave s2 102 report_doc) = [SaveCall 7].
Proof.
  intros s1 s2. split; [reflexivity|].
  apply (close_forgets_debounce s1 101 102 report_doc report_doc
           "C:\docs\report.docx"%string);
    [reflexivity | discriminate | discriminate | reflexivity | discriminate
    | by vm_compute].
Defined.

(** ** Polling *)


Lemma poll_documents_due (s : Service) (env : PollEnv) :
  polling_interval (config s) <= poll_now env - last_poll_time s →
  poll_documents s env
  = (set_last_poll_time (poll_now env) (snd (fst (check_all_documents s env))),
     snd (check_all_documents s env)).
Proof.
  intros Hge. unfold poll_documents. rewrite (proj2 (Qgeb_ge _ _) Hge).
  by destruct (check_all_documents s env) as [[n s1] c].
Qed.




(** X7: a poll that is due and cannot enumerate the documents (there is no
    wrapper, or reading the count raises) or finds none (no [Documents]
    attribute, or a count of 0 or less) issues no call and still sets
    [last_poll_time]: the next attempt waits for a whole interval. *)
Theorem poll_without_documents (s : Service) (env : PollEnv) :
  polling_interval (config s) <= poll_now env - last_poll_time s →
  word s = None
  ∨ Documents_Count env = Raises
  ∨ Documents_Count env = NoAttr
  ∨ (∃ n : Z, Documents_Count env = Val n ∧ (n ≤ 0)%Z) →
  poll_documents s env = (set_last_poll_time (poll_now env) s, []).
Proof.
  intros Hge Hcase. rewrite (poll_documents_due s env Hge).
  assert (check_all_documents s env = (0%Z, s, [])) as ->; [|done].
  unfold check_all_documents. destruct (word s) as [w|]; [|done].
  destruct Hcase as [?|[->|[->|(n & -> & Hn)]]]; try done; simpl.
  - assert (seqZ 1 n = []) as -> by (apply seqZ_nil; lia). done.
Qed.

Lemma poll_without_documents_witness :
  poll_documents connected_service (broken_documents 20)
  = (set_last_poll_time 20 connected_service, [])
  ∧ poll_documents fresh (three_slots 20) = (set_last_poll_time 20 fresh, []).
Proof.
  split.
  - apply poll_without_documents; [by vm_compute | right; left; reflexivity].
  - apply poll_without_documents; [by vm_compute | left; reflexivity].
Defined.

(** The loop of [_check_all_documents] is its body run over what
    [iterate_documents] yields. *)
Lemma check_documents_iterate (s : Service) (env : PollEnv) (indices : list Z) :
  check_documents s env indices
  = autosave_each s env
      (omap (λ i, d ← get_document env i; Some (i, d)) indices).
Proof.
  revert s. induction indices as [|i rest IH]; intros s; simpl; [done|].
  unfold get_document at 1. destruct (Documents_Item env i) as [d|]; simpl.
  - destruct (try_autosave s (autosave_now env i) d) as [[b s1] c1].
    by rewrite IH.
  - apply IH.
Qed.

Lemma length_omap_le {A B : Type} (f : A → option B) (l : list A) :
  (length (omap f l) ≤ length l)%nat.
Proof.
  induction l as [|x l IH]; csimpl; [done|]. destruct (f x); csimpl; lia.
Qed.

Lemma iterate_documents_yields_aux (env : PollEnv) (count : Z) :
  document_count (Documents_Count env) = Some count →
  ∃ docs : list (Z * Doc),
    iterate_documents env = Some docs
    ∧ (∀ (i : Z) (d : Doc),
         (i, d) ∈ docs ↔ (1 ≤ i ≤ count)%Z ∧ Documents_Item env i = Some d)
    ∧ (length docs ≤ Z.to_nat count)%nat
    ∧ ∀ s : Service, is_Some (word s) →
        check_all_documents s env = autosave_each s env docs.
Proof.
  intros Hc. unfold iterate_documents. rewrite Hc. simpl.
  exists (omap (λ i, d ← get_document env i; Some (i, d)) (seqZ 1 count)).
  split; [done|]. split; [|split].
  - intros i d. rewrite list_elem_of_omap. split.
    + intros (j & Hj & Hf). apply elem_of_seqZ in Hj.
      unfold get_document in Hf.
      destruct (Documents_Item env j) as [d'|] eqn:E; [|done].
      simpl in Hf. injection Hf as <- <-. split; [lia | done].
    + intros [Hi Hd]. exists i. split; [apply elem_of_seqZ; lia|].
      unfold get_document. by rewrite Hd.
  - etrans; [apply length_omap_le|]. by rewrite length_seqZ.
  - intros s [w Hw]. unfold check_all_documents. rewrite Hw, Hc.
    apply check_documents_iterate.
Qed.

(** X8: what [iterate_documents] yields.  When the count can be read, the
    generator yields exactly the documents at the indices 1 to [count]
    whose access does not raise, so at most [count] of them and none for a
    count of 0 or less; an index that raises is skipped and does not stop
    the enumeration.  [_check_all_documents] of a service with a wrapper is
    the loop body run over these documents. *)
Theorem iterate_documents_yields (env : PollEnv) (count : Z) :
  document_count (Documents_Count env) = Some count →
  ∃ docs : list (Z * Doc),
    iterate_documents env = Some docs
    ∧ (∀ (i : Z) (d : Doc),
         (i, d) ∈ docs ↔ (1 ≤ i ≤ count)%Z ∧ Documents_Item env i = Some d)
    ∧ (length docs ≤ Z.to_nat count)%nat
    ∧ ∀ s : Service, is_Some (word s) →
        check_all_documents s env = autosave_each s env docs.
Proof.
  intros Hc. unfold iterate_documents. rewrite Hc. simpl.
  exists (omap (λ i, d ← get_document env i; Some (i, d)) (seqZ 1 count)).
  split; [done|]. split; [|split].
  - intros i d. rewrite list_elem_of_omap. split.
    + intros (j & Hj & Hf). apply elem_of_seqZ in Hj.
      unfold get_document in Hf.
      destruct (Documents_Item env j) as [d'|] eqn:E; [|done].
      simpl in Hf. injection Hf as <- <-. split; [lia | done].
    + intros [Hi Hd]. exists i. split; [apply elem_of_seqZ; lia|].
      unfold get_document. by rewrite Hd.
  - etrans; [apply length_omap_le|]. by rewrite length_seqZ.
  - intros s [w Hw]. unfold check_all_documents. rewrite Hw, Hc.
    apply check_documents_iterate.
Qed.

Lemma iterate_documents_yields_witness :
  iterate_documents (three_slots 20)
  = Some [(1%Z, report_doc); (3%Z, with_Saved (Some false) notes_doc)]
  ∧ snd (check_all_documents connected_service (three_slots 20))
    = [SaveCall 7; SaveCall 8].
Proof.
  destruct (iterate_documents_yields (three_slots 20) 3 eq_refl)
    as (docs & Hd & _ & _ & Hc).
  assert (docs = [(1%Z, report_doc); (3%Z, with_Saved (Some false) notes_doc)])
    as -> by (injection Hd as <-; reflexivity).
  split; [reflexivity|].
  rewrite Hc by (by eexists). reflexivity.
Defined.

Lemma autosave_each_counts (s : Service) (env : PollEnv)
    (docs : list (Z * Doc)) :
  let r := autosave_each s env docs in
  (0 ≤ fst (fst r) ≤ Z.of_nat (length (snd r)))%Z
  ∧ (length (snd r) ≤ length docs)%nat
  ∧ ∀ c : HostCall, c ∈ snd r →
      ∃ (i : Z) (d : Doc), (i, d) ∈ docs ∧ c = SaveCall (doc_id d).
Proof.
  revert s. induction docs as [|[i d] rest IH]; intros s; simpl.
  - split; [lia | split; [lia |]]. intros c Hc. by apply elem_of_nil in Hc.
  - destruct (try_autosave_cases s (autosave_now env i) d) as [E|[E|E]];
      rewrite E; clear E.
    all: match goal with
         | |- context [autosave_each ?s1 ?e ?l] =>
           destruct (IH s1) as (Hn & Hl & Hc);
           destruct (autosave_each s1 e l) as [[n s2] c2]
         end; simpl in *.
    + split; [lia | split; [lia |]]. intros c Hin.
      destruct (Hc c Hin) as (j & d' & Hj & ->). exists j, d'.
      split; [by right | done].
    + split; [lia | split; [lia |]]. intros c Hin.
      apply elem_of_cons in Hin as [->|Hin].
      * exists i, d. split; [by left | done].
      * destruct (Hc c Hin) as (j & d' & Hj & ->). exists j, d'.
        split; [by right | done].
    + split; [lia | split; [lia |]]. intros c Hin.
      apply elem_of_cons in Hin as [->|Hin].
      * exists i, d. split; [by left | done].
      * destruct (Hc c Hin) as (j & d' & Hj & ->). exists j, d'.
        split; [by right | done].
Qed.

(** X9: the count that [_check_all_documents] returns is between 0 and the
    number of calls of [Save] it issued; it issues at most one call per
    document slot, every one of them a [Save] on a document found at an
    index from 1 to the count, and none when the count cannot be read. *)
Theorem poll_counts (s : Service) (env : PollEnv) :
  let r := check_all_documents s env in
  (0 ≤ fst (fst r) ≤ Z.of_nat (length (snd r)))%Z
  ∧ match document_count (Documents_Count env) with
    | Some count =>
      (length (snd r) ≤ Z.to_nat count)%nat
      ∧ ∀ c : HostCall, c ∈ snd r →
          ∃ (i : Z) (d : Doc),
            (1 ≤ i ≤ count)%Z ∧ Documents_Item env i = Some d
            ∧ c = SaveCall (doc_id d)
    | None => snd r = []
    end.
Proof.
  simpl. destruct (word s) as [w|] eqn:Hw.
  - destruct (document_count (Documents_Count env)) as [count|] eqn:Hc.
    + destruct (iterate_documents_yields_aux env count Hc)
        as (docs & _ & Hin & Hlen & Heq).
      rewrite (Heq s) by (by eexists).
      destruct (autosave_each_counts s env docs) as (Hn & Hl & Hcalls).
      split; [done | split; [lia |]].
      intros c Hcin. destruct (Hcalls c Hcin) as (i & d & Hid & ->).
      apply Hin in Hid as [Hi Hd]. by exists i, d.
    + unfold check_all_documents. rewrite Hw, Hc. simpl. split; [lia | done].
  - unfold check_all_documents. rewrite Hw. simpl.
    split; [lia|]. destruct (document_count _); [|done].
    split; [lia|]. intros c Hc. by apply elem_of_nil in Hc.
Qed.

Lemma poll_counts_witness :
  fst (fst (check_all_documents connected_service (three_slots 20))) = 2%Z
  ∧ (length (snd (check_all_documents connected_service (three_slots 20)))
     ≤ Z.to_nat 3)%nat
  ∧ ∃ (i : Z) (d : Doc),
      (1 ≤ i ≤ 3)%Z ∧ Documents_Item (three_slots 20) i = Some d
      ∧ SaveCall 8 = SaveCall (doc_id d).
Proof.
  destruct (poll_counts connected_service (three_slots 20)) as [_ H].
  simpl in H. destruct H as [H1 H2].
  split; [reflexivity | split; [exact H1 |]].
  apply H2. right. left.
Defined.

(** [try_autosave] reads nothing of the state but the configuration and the
    entry of the document. *)
Lemma try_autosave_local (s s1 : Service) (now : Q) (d : Doc) :
  config s1 = config s →
  last_save_times s1 !! autosave_path d = last_save_times s !! autosave_path d →
  fst (fst (try_autosave s1 now d)) = fst (fst (try_autosave s now d))
  ∧ snd (try_autosave s1 now d) = snd (try_autosave s now d)
  ∧ last_save_times (snd (fst (try_autosave s1 now d))) !! autosave_path d
    = last_save_times (snd (fst (try_autosave s now d))) !! autosave_path d.
Proof.
  intros Hc Hl. unfold try_autosave, last_time. rewrite Hc, Hl.
  destruct (Saved d) as [[]|]; simpl; try done;
    destruct (Qltb _ _); simpl; try done;
    destruct (Save d); simpl; try done; by rewrite !lookup_insert_eq.
Qed.

Lemma try_autosave_other_keys (s : Service) (now : Q) (d : Doc) (k : string) :
  k ≠ autosave_path d →
  last_save_times (snd (fst (try_autosave s now d))) !! k
  = last_save_times s !! k.
Proof.
  intros Hk. destruct (try_autosave_only_touches s now d) as (_ & H & _).
  by apply H.
Qed.

Lemma try_autosave_config (s : Service) (now : Q) (d : Doc) :
  config (snd (fst (try_autosave s now d))) = config s.
Proof. destruct (try_autosave_cases s now d) as [E|[E|E]]; by rewrite E. Qed.

Lemma poll_keys_cons (env : PollEnv) (i : Z) (rest : list Z) :
  poll_keys env (i :: rest)
  = match Documents_Item env i with
    | Some d => autosave_path d :: poll_keys env rest
    | None => poll_keys env rest
    end.
Proof. unfold poll_keys. csimpl. by destruct (Documents_Item env i). Qed.

Lemma check_documents_config (s : Service) (env : PollEnv) (indices : list Z) :
  config (snd (fst (check_documents s env indices))) = config s.
Proof.
  destruct (check_documents_quiet s env indices) as [H _]. simpl in H.
  by apply conn_fields_inv in H as (H & _).
Qed.

(** A poll leaves alone the entries of the keys that belong to none of its
    documents. *)
Lemma check_documents_untouched (s : Service) (env : PollEnv)
    (indices : list Z) (k : string) :
  k ∉ poll_keys env indices →
  last_save_times (snd (fst (check_documents s env indices))) !! k
  = last_save_times s !! k.
Proof.
  revert s. induction indices as [|i rest IH]; intros s Hk; [done|].
  rewrite poll_keys_cons in Hk. simpl.
  destruct (Documents_Item env i) as [d|]; [|by apply IH].
  apply not_elem_of_cons in Hk as [Hk1 Hk2].
  pose proof (try_autosave_other_keys s (autosave_now env i) d k Hk1) as H1.
  destruct (try_autosave s (autosave_now env i) d) as [[b s1] c1].
  specialize (IH s1 Hk2).
  destruct (check_documents s1 env rest) as [[n s2] c2]. simpl in *.
  congruence.
Qed.

Lemma check_documents_independent (env : PollEnv) (indices : list Z) :
  NoDup (poll_keys env indices) →
  ∀ s s1 : Service,
    config s1 = config s →
    (∀ k : string, k ∈ poll_keys env indices →
       last_save_times s1 !! k = last_save_times s !! k) →
    snd (check_documents s1 env indices) = concat (map (alone s env) indices)
    ∧ ∀ (i : Z) (d : Doc),
        i ∈ indices → Documents_Item env i = Some d →
        last_save_times (snd (fst (check_documents s1 env indices)))
          !! autosave_path d
        = last_save_times (snd (fst (try_autosave s (autosave_now env i) d)))
            !! autosave_path d.
Proof.
  induction indices as [|i rest IH]; intros Hnd s s1 Hcfg Hagree.
  { split; [done|]. intros i d Hi. by apply elem_of_nil in Hi. }
  rewrite poll_keys_cons in Hnd, Hagree. simpl. unfold alone at 1.
  destruct (Documents_Item env i) as [d|] eqn:Hd.
  - apply NoDup_cons in Hnd as [Hfresh Hnd].
    destruct (try_autosave_local s s1 (autosave_now env i) d Hcfg)
      as (_ & Hcalls & Hentry); [apply Hagree; by left|].
    pose proof (try_autosave_config s1 (autosave_now env i) d) as Hcfg1.
    pose proof (try_autosave_other_keys s1 (autosave_now env i) d) as Hother.
    destruct (try_autosave s1 (autosave_now env i) d) as [[b s1'] c1].
    simpl in *.
    destruct (IH Hnd s s1') as [Htr Hreg]; [congruence | |].
    { intros k Hk. rewrite Hother; [apply Hagree; by right|].
      intros ->. done. }
    pose proof (check_documents_untouched s1' env rest (autosave_path d) Hfresh)
      as Hkeep.
    destruct (check_documents s1' env rest) as [[n s2] c2]. simpl in *.
    split; [by rewrite Hcalls, Htr|].
    intros j d' Hj Hd'. apply elem_of_cons in Hj as [->|Hj].
    + rewrite Hd in Hd'. injection Hd' as <-. congruence.
    + by apply Hreg.
  - destruct (IH Hnd s s1 Hcfg Hagree) as [Htr Hreg].
    split; [done|].
    intros j d' Hj Hd'. apply elem_of_cons in Hj as [->|Hj]; [congruence|].
    by apply Hreg.
Qed.

(** X10: a poll treats documents with different keys independently.  When
    the accessible documents among the indices 1 to [count] have pairwise
    different registry keys, the calls the poll issues are, in order, the
    calls [try_autosave] would issue on each document from the state at the
    start of the poll, and the entry each document ends with is the one
    that single [try_autosave] would leave; a document whose [Save] throws
    changes nothing for the others. *)
Theorem poll_independent (s : Service) (env : PollEnv) (count : Z) :
  is_Some (word s) →
  document_count (Documents_Count env) = Some count →
  NoDup (poll_keys env (seqZ 1 count)) →
  snd (check_all_documents s env) = concat (map (alone s env) (seqZ 1 count))
  ∧ ∀ (i : Z) (d : Doc),
      (1 ≤ i ≤ count)%Z → Documents_Item env i = Some d →
      last_save_times (snd (fst (check_all_documents s env)))
        !! autosave_path d
      = last_save_times (snd (fst (try_autosave s (autosave_now env i) d)))
          !! autosave_path d.
Proof.
  intros [w Hw] Hc Hnd. unfold check_all_documents. rewrite Hw, Hc.
  destruct (check_documents_independent env (seqZ 1 count) Hnd s s)
    as [Htr Hreg]; [done | done |].
  split; [done|]. intros i d Hi Hd. apply Hreg; [|done].
  apply elem_of_seqZ. lia.
Qed.

Lemma poll_independent_witness :
  snd (check_all_documents connected_service (three_slots 20))
  = [SaveCall 7; SaveCall 8]
  ∧ last_save_times
      (snd (fst (check_all_documents connected_service (three_slots 20))))
      !! "C:\docs\notes.docx"%string
    = Some 20.
Proof.
  assert (is_Some (word connected_service)) as Hw by (by eexists).
  assert (NoDup (poll_keys (three_slots 20) (seqZ 1 3))) as Hnd.
  { apply (bool_decide_unpack _). by vm_compute. }
  destruct (poll_independent connected_service (three_slots 20) 3 Hw eq_refl Hnd)
    as [H1 H2].
  split.
  - rewrite H1. reflexivity.
  - etrans; [apply (H2 3%Z (with_Saved (Some false) notes_doc));
             [lia | reflexivity] | reflexivity].
Defined.

(** ** Connecting and reconnecting *)

(** [word] is the wrapper of [word_app]: the two are set together. *)
Lemma connect_to_word_handles (s : Service) (env : ConnectEnv) :
  word_app s = word s →
  word_app (snd (fst (connect_to_word s env)))
  = word (snd (fst (connect_to_word s env))).
Proof.
  intros H. unfold connect_to_word.
  destruct (word_app s) eqn:E, (ensure_dispatch env),
    (dispatch_with_events env); simpl; try done; by rewrite ?E.
Qed.

Lemma handle_reconnect_handles (s : Service) (env : ConnectEnv) :
  word_app s = word s →
  word_app (fst (handle_reconnect s env)) = word (fst (handle_reconnect s env)).
Proof.
  intros H. unfold handle_reconnect. destruct (connected s); [done|].
  destruct (_ <? _)%Z; [|done].
  set (s1 := set_reconnect_attempts _ s).
  pose proof (connect_to_word_handles s1 env H) as H1.
  destruct (connect_to_word s1 env) as [[[] s2] c]; exact H1.
Qed.

Lemma conn_fields_handles (s s' : Service) :
  conn_fields s' = conn_fields s →
  word_app s = word s → word_app s' = word s'.
Proof. unfold conn_fields. intros [= _ -> -> _ _]. done. Qed.

Lemma check_connection_handles (s : Service) (p : Outcome) :
  word_app s = word s →
  word_app (snd (check_connection s p)) = word (snd (check_connection s p)).
Proof.
  intros H. unfold check_connection. destruct (_ || _); [done|]. by destruct p.
Qed.

Lemma tick_handles (s : Service) (env : TickEnv) :
  word_app s = word s →
  word_app (fst (tick s env)) = word (fst (tick s env)).
Proof.
  intros H.
  destruct (tick_phases s env) as (s1 & c1 & s4 & c4 & [Hq1 _] & [Hq4 _] & ->).
  simpl in *. eapply conn_fields_handles; [exact Hq4|].
  apply handle_reconnect_handles, check_connection_handles.
  by eapply conn_fields_handles.
Qed.

Lemma reachable_handles (cfg : Config) (s : Service) :
  reachable cfg s → word_app s = word s.
Proof.
  induction 1 as [env|s env _ IH].
  - by apply connect_to_word_handles.
  - by apply tick_handles.
Qed.

(** X11: a connect that fails leaves the service without application
    object and without wrapper, disconnected, and with its registry,
    configuration and reconnect counter as they were.  Until a later
    connect succeeds, polls therefore issue no call and the
    document-change notification does nothing. *)
Theorem failed_connect_drops_wrapper (s : Service) (env : ConnectEnv) :
  word_app s = word s →
  ensure_dispatch env = None →
  let s' := snd (fst (connect_to_word s env)) in
  fst (fst (connect_to_word s env)) = false
  ∧ snd (connect_to_word s env) = [EnsureDispatchCall]
  ∧ connected s' = false ∧ word_app s' = None ∧ word s' = None
  ∧ last_save_times s' = last_save_times s
  ∧ config s' = config s
  ∧ reconnect_attempts s' = reconnect_attempts s
  ∧ (∀ penv : PollEnv, snd (poll_documents s' penv) = [])
  ∧ (∀ (now : Q) (count : Attr Z) (active : option Doc),
       on_document_change s' now count active = (s', [])).
Proof.
  intros Hh He. simpl.
  assert (word (snd (fst (connect_to_word s env))) = None) as Hw.
  { unfold connect_to_word. rewrite He.
    destruct (word_app s) eqn:E; simpl; [done | by rewrite <- Hh]. }
  split_and!; try done;
    try (unfold connect_to_word; rewrite He;
         destruct (word_app s) eqn:E; simpl; by rewrite ?E).
  - intros penv. unfold poll_documents.
    destruct (Qgeb _ _); [|done].
    unfold check_all_documents. by rewrite Hw.
  - intros now count active. unfold on_document_change. by rewrite Hw.
Qed.

Lemma failed_connect_drops_wrapper_witness :
  let s' := snd (fst (connect_to_word connected_service no_word)) in
  is_Some (word connected_service)
  ∧ word s' = None
  ∧ snd (poll_documents s' (three_slots 20)) = [].
Proof.
  intros s'.
  destruct (failed_connect_drops_wrapper connected_service no_word
              eq_refl eq_refl) as (_ & _ & _ & _ & Hw & _ & _ & _ & Hp & _).
  split; [by eexists | split; [exact Hw | apply Hp]].
Defined.

(** X12: there is no back-off.  Once the counter of a disconnected service
    has reached [reconnect_threshold], every tick makes one connect
    attempt, as long as they fail: [n] such ticks make [n] attempts and
    leave the counter [n] higher. *)
Theorem reconnect_every_tick (s : Service) (envs : list TickEnv) :
  connected s = false →
  (reconnect_threshold (config s) ≤ reconnect_attempts s)%Z →
  Forall (λ env, ensure_dispatch (connect_env env) = None) envs →
  connect_attempts (snd (ticks s envs)) = length envs
  ∧ connected (fst (ticks s envs)) = false
  ∧ reconnect_attempts (fst (ticks s envs))
    = (reconnect_attempts s + Z.of_nat (length envs))%Z.
Proof.
  revert s. induction envs as [|env rest IH]; intros s Hc Hthr Hall; simpl.
  - split; [done | split; [done | lia]].
  - apply Forall_cons in Hall as [He Hall].
    destruct (tick_reconnects s env) as (Hn & Ht & Hm); [by left | lia |].
    rewrite He in Hm. destruct Hm as [Hc1 Ha1].
    destruct (tick s env) as [s1 c1]. simpl in *.
    destruct (IH s1) as (Hn2 & Hc2 & Ha2); [done | lia | done |].
    destruct (ticks s1 rest) as [s2 c2]. simpl in *.
    rewrite connect_attempts_app, Hn, Hn2, Ha2, Ha1.
    split; [done | split; [done | lia]].
Qed.

Lemma reconnect_every_tick_witness :
  let s := set_reconnect_attempts 20 (set_connected false connected_service) in
  let envs := replicate 4 (quiet_tick Throws no_word 0) in
  connect_attempts (snd (ticks s envs)) = 4%nat
  ∧ reconnect_attempts (fst (ticks s envs)) = 24%Z.
Proof.
  intros s envs.
  destruct (reconnect_every_tick s envs) as (H1 & _ & H2);
    [reflexivity | by vm_compute | |].
  - unfold envs. simpl. repeat constructor.
  - split; [exact H1 | exact H2].
Defined.

(** X13: a connected service whose probe keeps succeeding is left alone:
    over any number of such ticks no connect is attempted and the
    connection fields (configuration, application object, wrapper, flag and
    counter) stay as they are. *)
Theorem connected_steady (s : Service) (envs : list TickEnv) :
  connected s = true →
  Forall (λ env, probe env = Returns) envs →
  conn_fields (fst (ticks s envs)) = conn_fields s
  ∧ connect_attempts (snd (ticks s envs)) = 0%nat.
Proof.
  revert s. induction envs as [|env rest IH]; intros s Hc Hall; simpl.
  - done.
  - apply Forall_cons in Hall as [Hp Hall].
    destruct (tick_steady s env Hc (or_intror Hp)) as [Hq Hn].
    destruct (tick s env) as [s1 c1]. simpl in *.
    destruct (IH s1) as [Hq2 Hn2]; [|done|].
    { apply conn_fields_inv in Hq as (_ & _ & -> & _). done. }
    destruct (ticks s1 rest) as [s2 c2]. simpl in *.
    rewrite connect_attempts_app, Hn, Hn2, Hq2, Hq. done.
Qed.

Lemma connected_steady_witness :
  let envs := replicate 3 (quiet_tick Returns no_word 40) in
  conn_fields (fst (ticks connected_service envs))
  = conn_fields connected_service
  ∧ connect_attempts (snd (ticks connected_service envs)) = 0%nat.
Proof.
  intros envs. apply connected_steady; [reflexivity|].
  unfold envs. simpl. repeat constructor.
Defined.

Lemma connect_to_word_frame_aux (s : Service) (env : ConnectEnv) :
  let s' := snd (fst (connect_to_word s env)) in
  last_save_times s' = last_save_times s
  ∧ last_poll_time s' = last_poll_time s
  ∧ reconnect_attempts s' = reconnect_attempts s
  ∧ running s' = running s
  ∧ debounce_seconds (config s') = debounce_seconds (config s)
  ∧ reconnect_threshold (config s') = reconnect_threshold (config s)
  ∧ main_loop_sleep (config s') = main_loop_sleep (config s)
  ∧ (dispatch_with_events env = Returns ∨ ensure_dispatch env = None →
     config s' = config s).
Proof.
  unfold connect_to_word.
  destruct (word_app s), (ensure_dispatch env), (dispatch_with_events env);
    simpl; split_and!; try done; by intros [|].
Qed.

(** X14: [connect_to_word] writes nothing but the two references, the
    connection flag and, without events, [polling_interval].  Whatever its
    outcome, the registry, the poll time, the reconnect counter and the
    [running] flag are as before, as are the other entries of the
    configuration; with events the whole configuration is. *)
Theorem connect_to_word_frame (s : Service) (env : ConnectEnv) :
  let s' := snd (fst (connect_to_word s env)) in
  last_save_times s' = last_save_times s
  ∧ last_poll_time s' = last_poll_time s
  ∧ reconnect_attempts s' = reconnect_attempts s
  ∧ running s' = running s
  ∧ debounce_seconds (config s') = debounce_seconds (config s)
  ∧ reconnect_threshold (config s') = reconnect_threshold (config s)
  ∧ main_loop_sleep (config s') = main_loop_sleep (config s)
  ∧ (dispatch_with_events env = Returns ∨ ensure_dispatch env = None →
     config s' = config s).
Proof.
  unfold connect_to_word.
  destruct (word_app s), (ensure_dispatch env), (dispatch_with_events env);
    simpl; split_and!; try done; by intros [|].
Qed.

Lemma connect_to_word_frame_witness :
  config (snd (fst (connect_to_word saved_at_0 word_with_events)))
  = DEFAULT_CONFIG
  ∧ last_save_times (snd (fst (connect_to_word saved_at_0 word_with_events)))
    = last_save_times saved_at_0.
Proof.
  destruct (connect_to_word_frame saved_at_0 word_with_events)
    as (H1 & _ & _ & _ & _ & _ & _ & H2).
  split; [apply H2; by left | exact H1].
Defined.

Lemma tick_config (s : Service) (env : TickEnv) :
  let c := config s in
  let c' := config (fst (tick s env)) in
  debounce_seconds c' = debounce_seconds c
  ∧ reconnect_threshold c' = reconnect_threshold c
  ∧ main_loop_sleep c' = main_loop_sleep c.
Proof.
  destruct (tick_phases s env) as (s1 & c1 & s4 & c4 & [Hq1 _] & [Hq4 _] & ->).
  simpl in *.
  apply conn_fields_inv in Hq1 as (Hcfg1 & _).
  apply conn_fields_inv in Hq4 as (Hcfg4 & _).
  rewrite Hcfg4, <- Hcfg1, <- (check_connection_config s1 (probe env)).
  set (s2 := snd (check_connection s1 (probe env))).
  unfold handle_reconnect. destruct (connected s2); [done|].
  destruct (_ <? _)%Z; [|done].
  set (s3 := set_reconnect_attempts _ s2).
  destruct (connect_to_word_frame_aux s3 (connect_env env))
    as (_ & _ & _ & _ & H1 & H2 & H3 & _).
  by destruct (connect_to_word s3 (connect_env env)) as [[[] s5] c5].
Qed.

(** X15: the configuration during a run.  Over any sequence of ticks
    [debounce_seconds], [reconnect_threshold] and [main_loop_sleep] keep
    their values, and [polling_interval] is either its initial value or the
    minimum of that value and 5: it is never raised, also not by a later
    connect that gets its events. *)
Theorem config_along_run (s : Service) (envs : list TickEnv) :
  let c := config s in
  let c' := config (fst (ticks s envs)) in
  debounce_seconds c' = debounce_seconds c
  ∧ reconnect_threshold c' = reconnect_threshold c
  ∧ main_loop_sleep c' = main_loop_sleep c
  ∧ (polling_interval c' = polling_interval c
     ∨ polling_interval c' = py_min (polling_interval c) 5)
  ∧ polling_interval c' <= polling_interval c.
Proof.
  simpl. revert s. induction envs as [|env rest IH]; intros s; simpl.
  - split_and!; try done; [by left | lra].
  - destruct (tick_config s env) as (H1 & H2 & H3).
    pose proof (tick_polling s env) as H4.
    destruct (tick s env) as [s1 c1]. simpl in *.
    destruct (IH s1) as (G1 & G2 & G3 & G4 & G5).
    destruct (ticks s1 rest) as [s2 c2]. simpl in *.
    rewrite G1, G2, G3, H1, H2, H3.
    assert (polling_interval (config s2) = polling_interval (config s)
            ∨ polling_interval (config s2)
              = py_min (polling_interval (config s)) 5) as Hp.
    { destruct G4 as [-> | ->], H4 as [-> | ->]; auto.
      right. apply py_min_idemp. }
    split_and!; try done.
    destruct Hp as [-> | ->]; [lra | apply py_min_le_l].
Qed.

(** ** Time stamps *)

Lemma try_autosave_before (T : Q) (s : Service) (now : Q) (d : Doc) :
  now <= T → registry_before T s →
  registry_before T (snd (fst (try_autosave s now d))).
Proof.
  intros Hn Hs.
  destruct (try_autosave_cases s now d) as [E|[E|E]]; rewrite E; try done.
  intros k t. simpl. destruct (decide (k = autosave_path d)) as [->|Hk].
  - rewrite lookup_insert_eq. intros [= <-]. done.
  - rewrite lookup_insert_ne by done. apply Hs.
Qed.

Lemma dispatch_before (T : Q) (s : Service) (now : Q) (e : Event) :
  now <= T → registry_before T s → registry_before T (fst (dispatch s now e)).
Proof.
  intros Hn Hs.
  pose proof (λ d, try_autosave_before T s now d Hn Hs) as Hauto.
  destruct e as [count active|sel|d|d|d]; simpl.
  - unfold on_document_change. destruct (word s); [|done].
    destruct (get_active_document _ _) as [[d|]|]; try done.
    specialize (Hauto d). by destruct (try_autosave s now d) as [[b s1] c].
  - unfold on_window_selection_change. destruct sel as [[d|]| |]; try done.
    specialize (Hauto d). by destruct (try_autosave s now d) as [[b s1] c].
  - unfold on_document_open.
    specialize (Hauto d). by destruct (try_autosave s now d) as [[b s1] c].
  - rewrite on_document_before_close_key. simpl.
    destruct (handler_key d) as [k|]; [|apply Hauto].
    intros k' t. simpl. intros Hl.
    apply lookup_delete_Some in Hl as [_ Hl]. by apply (Hauto d k').
  - rewrite on_document_before_save_key. simpl.
    destruct (handler_key d) as [k|]; [|done].
    intros k' t. simpl. destruct (decide (k' = k)) as [->|Hk].
    + rewrite lookup_insert_eq. intros [= <-]. done.
    + rewrite lookup_insert_ne by done. apply Hs.
Qed.

Lemma process_events_before (T : Q) (s : Service) (pending : list (Q * Event)) :
  (∀ now e, (now, e) ∈ pending → now <= T) →
  registry_before T s →
  registry_before T (fst (process_events s pending)).
Proof.
  revert s. induction pending as [|[now e] rest IH]; intros s Hp Hs; simpl.
  - done.
  - pose proof (dispatch_before T s now e) as H1.
    destruct (dispatch s now e) as [s1 c1]. simpl in H1.
    specialize (IH s1).
    destruct (process_events s1 rest) as [s2 c2]. simpl in *.
    apply IH.
    + intros now' e' Hin. apply (Hp now' e'). by right.
    + apply H1; [|done]. apply (Hp now e). by left.
Qed.

Lemma check_documents_before (T : Q) (s : Service) (env : PollEnv)
    (indices : list Z) :
  (∀ i, autosave_now env i <= T) →
  registry_before T s →
  registry_before T (snd (fst (check_documents s env indices))).
Proof.
  intros Hc. revert s. induction indices as [|i rest IH]; intros s Hs; simpl.
  - done.
  - destruct (Documents_Item env i) as [d|]; [|by apply IH].
    pose proof (try_autosave_before T s (autosave_now env i) d (Hc i) Hs) as H1.
    destruct (try_autosave s (autosave_now env i) d) as [[b s1] c1].
    specialize (IH s1 H1).
    by destruct (check_documents s1 env rest) as [[n s2] c2].
Qed.

Lemma poll_documents_before (T : Q) (s : Service) (env : PollEnv) :
  (∀ i, autosave_now env i <= T) →
  registry_before T s →
  registry_before T (fst (poll_documents s env)).
Proof.
  intros Hc Hs. unfold poll_documents. destruct (Qgeb _ _); [|done].
  assert (registry_before T (snd (fst (check_all_documents s env)))) as H.
  { unfold check_all_documents. destruct (word s); [|done].
    destruct (document_count _); [|done]. by apply check_documents_before. }
  by destruct (check_all_documents s env) as [[n s1] c].
Qed.

Lemma handle_reconnect_registry (s : Service) (env : ConnectEnv) :
  last_save_times (fst (handle_reconnect s env)) = last_save_times s.
Proof.
  unfold handle_reconnect. destruct (connected s); [done|].
  destruct (_ <? _)%Z; [|done].
  set (s1 := set_reconnect_attempts _ s).
  destruct (connect_to_word_frame_aux s1 env) as (H & _).
  destruct (connect_to_word s1 env) as [[[] s2] c]; exact H.
Qed.

Lemma check_connection_registry (s : Service) (p : Outcome) :
  last_save_times (snd (check_connection s p)) = last_save_times s.
Proof.
  unfold check_connection. destruct (_ || _); [done|]. by destruct p.
Qed.

(** X16: no time stamp from the future.  If no entry of the registry is
    later than [T] and no clock value read during a tick is later than
    [T], then no entry is later than [T] after the tick: every entry is a
    clock value that a handler or a poll has read. *)
Theorem registry_times_bounded (T : Q) (s : Service) (env : TickEnv) :
  registry_before T s →
  clock_before T env →
  registry_before T (fst (tick s env)).
Proof.
  intros Hs [Hp Hc]. unfold tick.
  pose proof (process_events_before T s (pending env) Hp Hs) as H1.
  destruct (process_events s (pending env)) as [s1 c1]. simpl in H1.
  pose proof (check_connection_registry s1 (probe env)) as H2.
  destruct (check_connection s1 (probe env)) as [b s2]. simpl in H2.
  pose proof (handle_reconnect_registry s2 (connect_env env)) as H3.
  destruct (handle_reconnect s2 (connect_env env)) as [s3 c3]. simpl in H3.
  assert (registry_before T s3) as H4.
  { intros k t. rewrite H3, H2. apply H1. }
  pose proof (poll_documents_before T s3 (poll_env env) Hc H4) as H5.
  by destruct (poll_documents s3 (poll_env env)) as [s4 c4].
Qed.

Lemma registry_times_bounded_witness :
  registry_before 12 saved_at_0
  ∧ clock_before 12 open_report_tick
  ∧ registry_before 12 (fst (tick saved_at_0 open_report_tick))
  ∧ last_save_times (fst (tick saved_at_0 open_report_tick))
      !! "C:\docs\report.docx"%string = Some 11.
Proof.
  assert (registry_before 12 saved_at_0) as H1.
  { intros k t. unfold saved_at_0. simpl.
    destruct (decide (k = autosave_path report_doc)) as [->|Hk].
    - rewrite lookup_insert_eq. intros [= <-]. by vm_compute.
    - rewrite lookup_insert_ne by done. by rewrite lookup_empty. }
  assert (clock_before 12 open_report_tick) as H2.
  { split.
    - intros now e Hin. apply list_elem_of_singleton in Hin as [= -> _].
      by vm_compute.
    - intros i. by vm_compute. }
  split; [exact H1 | split; [exact H2 | split]].
  - exact (registry_times_bounded 12 saved_at_0 open_report_tick H1 H2).
  - reflexivity.
Defined.

(** ** The loop, [stop] and [shutdown] *)

Lemma dispatch_running (s : Service) (now : Q) (e : Event) :
  running (fst (dispatch s now e)) = running s.
Proof.
  destruct (dispatch_effects_aux s now e) as (k & H & _). by rewrite H.
Qed.

Lemma process_events_running (s : Service) (pending : list (Q * Event)) :
  running (fst (process_events s pending)) = running s.
Proof.
  revert s. induction pending as [|[now e] rest IH]; intros s; simpl; [done|].
  pose proof (dispatch_running s now e) as H1.
  destruct (dispatch s now e) as [s1 c1]. specialize (IH s1).
  destruct (process_events s1 rest) as [s2 c2]. simpl in *. congruence.
Qed.

Lemma check_documents_running (s : Service) (env : PollEnv) (indices : list Z) :
  running (snd (fst (check_documents s env indices))) = running s.
Proof.
  revert s. induction indices as [|i rest IH]; intros s; simpl; [done|].
  destruct (Documents_Item env i) as [d|]; [|apply IH].
  pose proof (try_autosave_frame s (autosave_now env i) d) as H1.
  destruct (try_autosave s (autosave_now env i) d) as [[b s1] c1].
  specialize (IH s1).
  destruct (check_documents s1 env rest) as [[n s2] c2]. simpl in *.
  rewrite IH, H1. done.
Qed.

Lemma poll_documents_running (s : Service) (env : PollEnv) :
  running (fst (poll_documents s env)) = running s.
Proof.
  unfold poll_documents. destruct (Qgeb _ _); [|done].
  assert (running (snd (fst (check_all_documents s env))) = running s) as H.
  { unfold check_all_documents. destruct (word s); [|done].
    destruct (document_count _); [|done]. apply check_documents_running. }
  by destruct (check_all_documents s env) as [[n s1] c].
Qed.

Lemma handle_reconnect_running (s : Service) (env : ConnectEnv) :
  running (fst (handle_reconnect s env)) = running s.
Proof.
  unfold handle_reconnect. destruct (connected s); [done|].
  destruct (_ <? _)%Z; [|done].
  set (s1 := set_reconnect_attempts _ s).
  destruct (connect_to_word_frame_aux s1 env) as (_ & _ & _ & H & _).
  destruct (connect_to_word s1 env) as [[[] s2] c]; exact H.
Qed.

Lemma check_connection_running (s : Service) (p : Outcome) :
  running (snd (check_connection s p)) = running s.
Proof.
  unfold check_connection. destruct (_ || _); [done|]. by destruct p.
Qed.

Lemma tick_running (s : Service) (env : TickEnv) :
  running (fst (tick s env)) = running s.
Proof.
  unfold tick.
  pose proof (process_events_running s (pending env)) as H1.
  destruct (process_events s (pending env)) as [s1 c1].
  pose proof (check_connection_running s1 (probe env)) as H2.
  destruct (check_connection s1 (probe env)) as [b s2].
  pose proof (handle_reconnect_running s2 (connect_env env)) as H3.
  destruct (handle_reconnect s2 (connect_env env)) as [s3 c3].
  pose proof (poll_documents_running s3 (poll_env env)) as H4.
  destruct (poll_documents s3 (poll_env env)) as [s4 c4].
  simpl in *. congruence.
Qed.

Lemma run_loop_ticks (s : Service) (envs : list TickEnv) :
  running s = true →
  run_loop s envs = ticks s envs ∧ running (fst (ticks s envs)) = true.
Proof.
  revert s. induction envs as [|env rest IH]; intros s Hr; simpl; [done|].
  rewrite Hr. pose proof (tick_running s env) as H1.
  destruct (tick s env) as [s1 c1]. simpl in H1.
  destruct (IH s1) as [-> H2]; [congruence|].
  by destruct (ticks s1 rest) as [s2 c2].
Qed.

(** X17: nothing in a tick clears [running].  A loop entered with the flag
    set goes through every iteration it is given, and the flag is still set
    afterwards: the loop ends only through [stop] called from outside or
    through an interrupt.  After [stop] the loop does not run a single
    iteration more. *)
Theorem loop_runs_until_stopped (s : Service) (envs : list TickEnv) :
  (running s = true →
   run_loop s envs = ticks s envs ∧ running (fst (run_loop s envs)) = true)
  ∧ run_loop (stop s) envs = (stop s, []).
Proof.
  split.
  - intros Hr. destruct (run_loop_ticks s envs Hr) as [-> H]. done.
  - by destruct envs.
Qed.

Lemma loop_runs_until_stopped_witness :
  let envs := replicate 3 (quiet_tick Throws no_word 40) in
  run_loop connected_service envs = ticks connected_service envs
  ∧ reconnect_attempts (fst (run_loop connected_service envs)) = 3%Z
  ∧ run_loop (stop connected_service) envs = (stop connected_service, []).
Proof.
  intros envs.
  destruct (loop_runs_until_stopped connected_service envs) as [H1 H2].
  destruct H1 as [H1 _]; [reflexivity|].
  split; [exact H1 | split; [by rewrite H1 | exact H2]].
Defined.

Lemma ticks_handles (s : Service) (envs : list TickEnv) :
  word_app s = word s →
  word_app (fst (ticks s envs)) = word (fst (ticks s envs)).
Proof.
  revert s. induction envs as [|env rest IH]; intros s H; simpl; [done|].
  pose proof (tick_handles s env H) as H1.
  destruct (tick s env) as [s1 c1]. specialize (IH s1 H1).
  by destruct (ticks s1 rest) as [s2 c2].
Qed.

Lemma run_loop_handles (s : Service) (envs : list TickEnv) :
  word_app s = word s →
  word_app (fst (run_loop s envs)) = word (fst (run_loop s envs)).
Proof.
  intros H. destruct (running s) eqn:Hr.
  - destruct (run_loop_ticks s envs Hr) as [-> _]. by apply ticks_handles.
  - destruct envs; simpl; by rewrite ?Hr.
Qed.

(** X18: [shutdown] drops the application object and its wrapper and
    nothing else: the registry, the [connected] flag, the counters and the
    configuration stay as they are.  It is idempotent, so the second call
    that [main] makes after [run] changes nothing; and whatever happens in
    [run], the service it leaves holds no reference to Word. *)
Theorem shutdown_releases (s : Service) :
  word_app s = word s →
  word_app (shutdown s) = None ∧ word (shutdown s) = None
  ∧ shutdown (shutdown s) = shutdown s
  ∧ last_save_times (shutdown s) = last_save_times s
  ∧ connected (shutdown s) = connected s
  ∧ reconnect_attempts (shutdown s) = reconnect_attempts s
  ∧ config (shutdown s) = config s
  ∧ ∀ (env : ConnectEnv) (envs : list TickEnv),
      word_app (fst (run s env envs)) = None
      ∧ word (fst (run s env envs)) = None
      ∧ shutdown (fst (run s env envs)) = fst (run s env envs).
Proof.
  assert (∀ s0 : Service, word_app s0 = word s0 →
            word_app (shutdown s0) = None ∧ word (shutdown s0) = None
            ∧ shutdown (shutdown s0) = shutdown s0) as Hsh.
  { intros s0 H0. unfold shutdown.
    destruct (word_app s0) eqn:E; simpl; [done|]. by rewrite E, <- H0. }
  intros H. destruct (Hsh s H) as (H1 & H2 & H3).
  split_and!; try done; try (unfold shutdown; by destruct (word_app s)).
  intros env envs. unfold run.
  pose proof (connect_to_word_handles s env H) as Hc.
  destruct (connect_to_word s env) as [[ok s0] c0]. simpl in Hc.
  pose proof (run_loop_handles s0 envs Hc) as Hl.
  destruct (run_loop s0 envs) as [s1 c1]. simpl in *.
  by apply Hsh.
Qed.

Lemma shutdown_releases_witness :
  let s' := fst (run fresh word_with_events
                   [quiet_tick Returns word_with_events 40]) in
  word_app s' = None ∧ word s' = None ∧ connected s' = true.
Proof.
  intros s'.
  destruct (shutdown_releases fresh eq_refl) as (_ & _ & _ & _ & _ & _ & _ & H).
  destruct (H word_with_events [quiet_tick Returns word_with_events 40])
    as (H1 & H2 & _).
  split; [exact H1 | split; [exact H2 | reflexivity]].
Defined.

(** ** Synthetic identifiers *)

(** X19: two documents without a readable full path and with different
    ids have different registry keys: the synthetic identifier is
    injective in the id, so a save of one never debounces the other. *)
Theorem pathless_keys_differ (d d' : Doc) :
  (∀ p : string, FullName d ≠ Val p) →
  (∀ p : string, FullName d' ≠ Val p) →
  doc_id d ≠ doc_id d' →
  autosave_path d ≠ autosave_path d'.
Proof.
  intros Hd Hd' Hid Heq. apply Hid.
  assert (∀ x : Doc, (∀ p : string, FullName x ≠ Val p) →
            autosave_path x = Unknown_id x) as Hu.
  { intros x Hx. unfold autosave_path, autosave_identity.
    destruct (FullName x) as [p| |]; [by destruct (Hx p) | |];
      by destruct (Name x). }
  rewrite (Hu d Hd), (Hu d' Hd') in Heq. unfold Unknown_id in Heq.
  apply (String.app_inj "Unknown_") in Heq. by apply (inj pretty) in Heq.
Qed.

Lemma pathless_keys_differ_witness :
  autosave_path pathless_doc ≠ autosave_path other_pathless_doc.
Proof.
  apply pathless_keys_differ; [discriminate | discriminate | discriminate].
Defined.

(** ** [load_config] *)

Section load_config_properties.
Context `{Builtins}.

Lemma load_config_lookup (file : ConfigFile) (environ : gmap string string)
    (key : string) :
  load_config file environ !! key
  = env_override environ key <$> file_update file !! key.
Proof.
  unfold load_config. rewrite map_lookup_imap.
  by destruct (file_update file !! key).
Qed.

(** The defaults are integers, a float and a string. *)
Lemma DEFAULT_CONFIG_dict_types (key : string) (d : PyVal) :
  DEFAULT_CONFIG_dict !! key = Some d →
  (∃ n, d = PyInt n) ∨ (∃ x, d = PyFloat x) ∨ (∃ t, d = PyStr t).
Proof.
  intros Hd. apply elem_of_list_to_map_2 in Hd.
  repeat (apply elem_of_cons in Hd as [[= _ ->]|Hd]; [by eauto|]).
  by apply elem_of_nil in Hd.
Qed.


(** X21: the environment cannot change the type of a boolean, integer or
    floating-point entry: after the loop such an entry holds a value of the
    type it had after the file was read.  An entry of another type is kept
    or replaced by the text of its variable.  So every default that the
    file does not set is loaded with the type of the default, whatever the
    environment holds. *)
Theorem load_config_types (file : ConfigFile)
    (environ : gmap string string) (key : string) (v w : PyVal) :
  file_update file !! key = Some v →
  load_config file environ !! key = Some w →
  match v with
  | PyBool _ | PyInt _ | PyFloat _ => same_type w v
  | PyNone | PyStr _ | PyList _ | PyDict _ =>
    w = v ∨ ∃ text, environ !! env_var key = Some text ∧ w = PyStr text
  end
  ∧ ((∀ entries, file = JsonObject entries → entries !! key = None) →
     ∃ d, DEFAULT_CONFIG_dict !! key = Some d ∧ same_type w d).
Proof.
  intros Hv Hw. rewrite load_config_lookup, Hv in Hw. simpl in Hw.
  injection Hw as <-.
  assert (match v with
          | PyBool _ | PyInt _ | PyFloat _ =>
            same_type (env_override environ key v) v
          | PyNone | PyStr _ | PyList _ | PyDict _ =>
            env_override environ key v = v
            ∨ ∃ text, environ !! env_var key = Some text
                      ∧ env_override environ key v = PyStr text
          end) as Hty.
  { unfold env_override.
    destruct (environ !! env_var key) as [text|]; [|by destruct v; auto].
    destruct v; simpl; try done; try (right; by exists text).
    - by destruct (py_int text).
    - by destruct (py_float text). }
  split; [exact Hty|].
  intros Hn.
  assert (DEFAULT_CONFIG_dict !! key = Some v) as Hd.
  { destruct file as [| |entries]; try done. simpl in Hv.
    rewrite lookup_union_r in Hv; [done | by apply Hn]. }
  exists v. split; [done|].
  destruct (DEFAULT_CONFIG_dict_types key v Hd) as [(n & ->)|[(x & ->)|(t & ->)]];
    try done.
  by destruct Hty as [-> | (text & _ & ->)].
Qed.

End load_config_properties.


Lemma load_config_types_witness :
  @same_type example_builtins (PyInt 30) (PyInt 10)
  ∧ ∃ d, @DEFAULT_CONFIG_dict example_builtins !! "debounce_seconds"%string
         = Some d
         ∧ same_type (PyInt 30) d.
Proof.
  destruct (@load_config_types example_builtins example_file example_environ
              "debounce_seconds"%string (PyInt 10) (PyInt 30))
    as [H1 H2]; [by vm_compute | by vm_compute |].
  split; [exact H1|]. apply H2.
  intros entries [= <-]. by vm_compute.
Defined.

(** ** Invariants of a run *)

(** X22: what holds at the top of every iteration of the loop of [run],
    for a service started from [cfg].  The reconnect counter is not
    negative, and it is 0 whenever the service is connected; a connected
    service has a wrapper; the wrapper is there exactly when the
    application object is; the service is still [running]; the debounce
    time and the reconnect threshold are those of [cfg], and the polling
    interval is the one of [cfg] or the minimum of it and 5. *)
Theorem run_invariant (cfg : Config) (s : Service) :
  reachable cfg s →
  (0 ≤ reconnect_attempts s)%Z
  ∧ (connected s = true → reconnect_attempts s = 0%Z ∧ is_Some (word s))
  ∧ word_app s = word s
  ∧ running s = true
  ∧ debounce_seconds (config s) = debounce_seconds cfg
  ∧ reconnect_threshold (config s) = reconnect_threshold cfg
  ∧ (polling_interval (config s) = polling_interval cfg
     ∨ polling_interval (config s) = py_min (polling_interval cfg) 5).
Proof.
  intros Hr.
  destruct (reachable_invariant cfg s Hr) as (H1 & H2 & H3).
  split; [done | split; [done | split; [by eapply reachable_handles|]]].
  clear H1 H2. induction Hr as [env|s env Hr IH].
  - unfold startup.
    destruct (connect_to_word_frame_aux (init cfg) env)
      as (_ & _ & _ & Hrun & Hdeb & _).
    pose proof (connect_to_word_polling (init cfg) env) as Hp.
    split; [by rewrite Hrun | split; [by rewrite Hdeb | split; [done|]]].
    exact Hp.
  - destruct IH as (I1 & I2 & _ & I4);
      [by destruct (reachable_invariant cfg s Hr) as (_ & _ & ?)|].
    destruct (tick_config s env) as (T1 & T2 & _).
    pose proof (tick_polling s env) as T3. simpl in T3.
    split; [by rewrite tick_running|].
    split; [by rewrite T1|]. split; [done|].
    destruct T3 as [-> | ->]; [done|].
    destruct I4 as [-> | ->]; [by right|]. right. apply py_min_idemp.
Qed.

Lemma run_invariant_witness :
  let s := fst (tick connected_service (quiet_tick Throws no_word 40)) in
  reachable DEFAULT_CONFIG s
  ∧ reconnect_attempts s = 1%Z
  ∧ connected s = false
  ∧ running s = true
  ∧ word_app s = word s.
Proof.
  intros s.
  assert (reachable DEFAULT_CONFIG s) as Hr
    by (apply reachable_tick, reachable_startup).
  destruct (run_invariant DEFAULT_CONFIG s Hr) as (_ & _ & H3 & H4 & _).
  split; [exact Hr | split; [reflexivity | split; [reflexivity |]]].
  split; [exact H4 | exact H3].
Defined.
